(** * balloon_sim: wind interpolation, dead reckoning and NMEA encoding

    A shallow embedding of [balloon_sim.py].

    Numbers.  The program computes with IEEE doubles.  A finite double is
    modelled by the real number it denotes and arithmetic on finite values is
    exact (no rounding, no overflow); the three special values of the format
    are kept next to the finite ones in [pyfloat], with the behaviour Python
    gives them (comparisons with NaN are false, [math.sin] of an infinity
    raises [ValueError], ...).  The wind table holds finite values only.
    Where rounding decides a property, the function is given a second time
    on binary64 numbers (module [F64]).

    Exceptions.  A Python function that may raise returns a [result]. *)

From Stdlib Require Import Reals Lra Lia ZArith NArith List String Ascii Bool.
From Stdlib Require Import DecimalString Machin Sorted Permutation.
From Stdlib Require PrimFloat FloatOps SpecFloat.
Import ListNotations.

Open Scope R_scope.

(* ------------------------------------------------------------------ *)
(** * Exceptions *)

Inductive exn : Type :=
| IndexError
| ValueError
| OverflowError
| SerialException.

Inductive result (A : Type) : Type :=
| Ok (a : A)
| Raise (e : exn).

Arguments Ok {A} a.
Arguments Raise {A} e.

Definition bind {A B : Type} (m : result A) (k : A -> result B) : result B :=
  match m with
  | Ok a => k a
  | Raise e => Raise e
  end.

Notation "x <- m ;; k" := (bind m (fun x => k))
  (at level 61, m at next level, right associativity).

(* ------------------------------------------------------------------ *)
(** * Floats *)

Inductive pyfloat : Type :=
| Finite (r : R)
| PInf
| NInf
| NaN.

Definition Rleb (x y : R) : bool := if Rle_dec x y then true else false.
Definition Rltb (x y : R) : bool := if Rlt_dec x y then true else false.
Definition Reqb (x y : R) : bool := if Req_dec_T x y then true else false.

(** [x + y] *)
Definition fadd (x y : pyfloat) : pyfloat :=
  match x, y with
  | NaN, _ | _, NaN => NaN
  | Finite a, Finite b => Finite (a + b)
  | PInf, NInf | NInf, PInf => NaN
  | PInf, _ | _, PInf => PInf
  | NInf, _ | _, NInf => NInf
  end.

(** [-x] *)
Definition fopp (x : pyfloat) : pyfloat :=
  match x with
  | Finite a => Finite (- a)
  | PInf => NInf
  | NInf => PInf
  | NaN => NaN
  end.

(** [x - y] *)
Definition fsub (x y : pyfloat) : pyfloat := fadd x (fopp y).

(** The product of an infinity, positive when [pos], with the finite [a]. *)
Definition inf_times (pos : bool) (a : R) : pyfloat :=
  if Rltb 0 a then (if pos then PInf else NInf)
  else if Rltb a 0 then (if pos then NInf else PInf)
  else NaN.

(** [x * y] *)
Definition fmul (x y : pyfloat) : pyfloat :=
  match x, y with
  | NaN, _ | _, NaN => NaN
  | Finite a, Finite b => Finite (a * b)
  | PInf, Finite a | Finite a, PInf => inf_times true a
  | NInf, Finite a | Finite a, NInf => inf_times false a
  | PInf, PInf | NInf, NInf => PInf
  | PInf, NInf | NInf, PInf => NInf
  end.

(** [x / c] for a finite, non-zero constant [c] (the program only divides
    by the literals 6371 and 3.28084). *)
Definition fdiv_const (x : pyfloat) (c : R) : pyfloat :=
  match x with
  | Finite a => Finite (a / c)
  | PInf => inf_times true c
  | NInf => inf_times false c
  | NaN => NaN
  end.

(** [abs(x)] *)
Definition fabs (x : pyfloat) : pyfloat :=
  match x with
  | Finite a => Finite (Rabs a)
  | PInf | NInf => PInf
  | NaN => NaN
  end.

(** [x <= y] *)
Definition fle (x y : pyfloat) : bool :=
  match x, y with
  | NaN, _ | _, NaN => false
  | Finite a, Finite b => Rleb a b
  | NInf, _ => true
  | _, PInf => true
  | _, _ => false
  end.

(** [x >= y] *)
Definition fge (x y : pyfloat) : bool := fle y x.

(** Floor. *)
Definition Rfloor (x : R) : Z := Int_part x.

(** [x % m] on finite values, computed exactly: the result has the sign of
    [m] and is smaller than [m].  On doubles the result can round to [m]
    itself; see [F64.rem]. *)
Definition pymod (x m : R) : R := x - m * IZR (Rfloor (x / m)).

(** [x % m] for a finite, non-zero constant [m]: the remainder of an
    infinity is NaN, no exception. *)
Definition fmod_const (x : pyfloat) (m : R) : pyfloat :=
  match x with
  | Finite a => Finite (pymod a m)
  | _ => NaN
  end.

Definition math_isnan (x : pyfloat) : bool :=
  match x with
  | NaN => true
  | _ => false
  end.

Definition math_isfinite (x : pyfloat) : bool :=
  match x with
  | Finite _ => true
  | _ => false
  end.

Definition math_radians (x : pyfloat) : pyfloat := fmul x (Finite (PI / 180)).
Definition math_degrees (x : pyfloat) : pyfloat := fmul x (Finite (180 / PI)).

Definition math_sin (x : pyfloat) : result pyfloat :=
  match x with
  | Finite a => Ok (Finite (sin a))
  | NaN => Ok NaN
  | PInf | NInf => Raise ValueError
  end.

Definition math_cos (x : pyfloat) : result pyfloat :=
  match x with
  | Finite a => Ok (Finite (cos a))
  | NaN => Ok NaN
  | PInf | NInf => Raise ValueError
  end.

(** [math.asin]: a domain error outside [-1, 1]. *)
Definition math_asin (x : pyfloat) : result pyfloat :=
  match x with
  | Finite a =>
      if Rleb (-1) a && Rleb a 1 then Ok (Finite (asin a)) else Raise ValueError
  | NaN => Ok NaN
  | PInf | NInf => Raise ValueError
  end.

(** The angle of the point [(x, y)], in (-PI, PI]. *)
Definition atan2 (y x : R) : R :=
  if Rltb 0 x then atan (y / x)
  else if Rltb x 0 then
         (if Rleb 0 y then atan (y / x) + PI else atan (y / x) - PI)
  else if Rltb 0 y then PI / 2
  else if Rltb y 0 then - (PI / 2)
  else 0.

(** [math.atan2(y, x)]: never raises. *)
Definition math_atan2 (y x : pyfloat) : pyfloat :=
  match y, x with
  | NaN, _ | _, NaN => NaN
  | Finite b, Finite a => Finite (atan2 b a)
  | Finite b, PInf => Finite 0
  | Finite b, NInf => if Rleb 0 b then Finite PI else Finite (- PI)
  | PInf, Finite _ => Finite (PI / 2)
  | NInf, Finite _ => Finite (- (PI / 2))
  | PInf, PInf => Finite (PI / 4)
  | NInf, PInf => Finite (- (PI / 4))
  | PInf, NInf => Finite (3 * PI / 4)
  | NInf, NInf => Finite (- (3 * PI / 4))
  end.

(** [int(x)]: truncation toward zero; NaN and the infinities have no
    integer value. *)
Definition py_int (x : pyfloat) : result Z :=
  match x with
  | Finite a => Ok (if Rleb 0 a then Rfloor a else (- Rfloor (- a))%Z)
  | NaN => Raise ValueError
  | PInf | NInf => Raise OverflowError
  end.

(* ------------------------------------------------------------------ *)
(** * Configuration *)

Definition UPDATE_INTERVAL : R := 1.
Definition EARTH_RADIUS_KM : R := 6371.

(* ------------------------------------------------------------------ *)
(** * The wind table and its interpolation *)

(** One row of [winds_df]. *)
Record WindSample : Type := mkWind {
  height_ft : R;
  bearing_deg : R;
  speed_knots : R
}.

Fixpoint insert_by_height (w : WindSample) (l : list WindSample)
  : list WindSample :=
  match l with
  | [] => [w]
  | v :: l' =>
      if Rleb (height_ft w) (height_ft v) then w :: l
      else v :: insert_by_height w l'
  end.

(** [winds_df.sort_values(by="height_ft")]: rows in ascending height.  Rows
    of equal height keep their order here; pandas does not promise one. *)
Fixpoint sort_values (l : list WindSample) : list WindSample :=
  match l with
  | [] => []
  | w :: l' => insert_by_height w (sort_values l')
  end.

(** The order of the sorted table. *)
Definition height_le (a b : WindSample) : Prop := height_ft a <= height_ft b.

(** The altitude is a sampled one, or lies strictly between two sampled
    ones. *)
Definition covered (winds_df : list WindSample) (altitude_ft : R) : Prop :=
  (exists w, In w winds_df /\ height_ft w = altitude_ft)
  \/ ((exists w, In w winds_df /\ height_ft w < altitude_ft)
      /\ (exists w, In w winds_df /\ altitude_ft < height_ft w)).

(** [frame.iloc[-1]] *)
Definition iloc_last (l : list WindSample) : result WindSample :=
  match rev l with
  | [] => Raise IndexError
  | w :: _ => Ok w
  end.

(** [frame.iloc[0]] *)
Definition iloc_first (l : list WindSample) : result WindSample :=
  match l with
  | [] => Raise IndexError
  | w :: _ => Ok w
  end.

(** [row.empty] on a row taken out of the frame: the row holds the three
    columns, so it is never empty. *)
Definition row_empty (w : WindSample) : bool := false.

Definition interpolate_wind (winds_df : list WindSample) (altitude_ft : R)
  : result (R * R) :=
  let sorted_winds := sort_values winds_df in
  let exact_match :=
    filter (fun w => Reqb (height_ft w) altitude_ft) sorted_winds in
  match exact_match with
  | w :: _ => Ok (bearing_deg w, speed_knots w)
  | [] =>
      lower_wind <-
        iloc_last (filter (fun w => Rltb (height_ft w) altitude_ft) sorted_winds) ;;
      upper_wind <-
        iloc_first (filter (fun w => Rltb altitude_ft (height_ft w)) sorted_winds) ;;
      if row_empty lower_wind then
        Ok (bearing_deg upper_wind, speed_knots upper_wind)
      else if row_empty upper_wind then
        Ok (bearing_deg lower_wind, speed_knots lower_wind)
      else
        let lower_bearing := bearing_deg lower_wind in
        let upper_bearing := bearing_deg upper_wind in
        let angle_difference := pymod (upper_bearing - lower_bearing) 360 in
        let angle_difference :=
          if Rltb 180 angle_difference then angle_difference - 360
          else angle_difference in
        let fraction :=
          (altitude_ft - height_ft lower_wind)
          / (height_ft upper_wind - height_ft lower_wind) in
        let interpolated_bearing :=
          pymod (lower_bearing + fraction * angle_difference) 360 in
        let interpolated_speed :=
          speed_knots lower_wind
          + fraction * (speed_knots upper_wind - speed_knots lower_wind) in
        Ok (interpolated_bearing, interpolated_speed)
  end.

(* ------------------------------------------------------------------ *)
(** * The wind query on doubles

    [interpolate_wind] once more, with the arithmetic of the program:
    binary64 numbers and their rounded operations.  The operations are the
    primitive ones; only the remainder is defined here. *)

Module F64.
Import PrimFloat FloatOps SpecFloat.
Local Open Scope float_scope.

(** C's [fmod]: the remainder of the truncated division, computed exactly,
    with the sign of [x]. *)
Definition fmod (x y : float) : float :=
  match Prim2SF x, Prim2SF y with
  | S754_nan, _ | _, S754_nan => nan
  | S754_infinity _, _ => nan
  | _, S754_zero _ => nan
  | S754_zero _, _ => x
  | S754_finite _ _ _, S754_infinity _ => x
  | S754_finite sx mx ex, S754_finite _ my ey =>
      let e := Z.min ex ey in
      let r := ((Z.pos mx * 2 ^ (ex - e)) mod (Z.pos my * 2 ^ (ey - e)))%Z in
      match r with
      | Z0 => if sx then neg_zero else zero
      | _ =>
          SF2Prim (binary_normalize prec emax (if sx then (- r)%Z else r) e false)
      end
  end.

(** [x % m] on doubles, as numpy and Python compute it: [fmod], then [m] is
    added when the remainder is not zero and its sign is not the sign of
    [m]; a zero remainder takes the sign of [m]. *)
Definition rem (x m : float) : float :=
  let md := fmod x m in
  if md =? 0 then (if m <? 0 then neg_zero else zero)
  else if xorb (m <? 0) (md <? 0) then md + m
  else md.

(** One row of [winds_df], as doubles. *)
Record WindSample64 : Type := mkWind64 {
  height_ft64 : float;
  bearing_deg64 : float;
  speed_knots64 : float
}.

Fixpoint insert_by_height64 (w : WindSample64) (l : list WindSample64)
  : list WindSample64 :=
  match l with
  | [] => [w]
  | v :: l' =>
      if height_ft64 w <=? height_ft64 v then w :: l
      else v :: insert_by_height64 w l'
  end.

Fixpoint sort_values64 (l : list WindSample64) : list WindSample64 :=
  match l with
  | [] => []
  | w :: l' => insert_by_height64 w (sort_values64 l')
  end.

Definition iloc_last64 (l : list WindSample64) : result WindSample64 :=
  match rev l with
  | [] => Raise IndexError
  | w :: _ => Ok w
  end.

Definition iloc_first64 (l : list WindSample64) : result WindSample64 :=
  match l with
  | [] => Raise IndexError
  | w :: _ => Ok w
  end.

Definition row_empty64 (w : WindSample64) : bool := false.

Definition interpolate_wind64 (winds_df : list WindSample64)
                              (altitude_ft : float) : result (float * float) :=
  let sorted_winds := sort_values64 winds_df in
  let exact_match :=
    filter (fun w => height_ft64 w =? altitude_ft) sorted_winds in
  match exact_match with
  | w :: _ => Ok (bearing_deg64 w, speed_knots64 w)
  | [] =>
      lower_wind <-
        iloc_last64 (filter (fun w => height_ft64 w <? altitude_ft)
                            sorted_winds) ;;
      upper_wind <-
        iloc_first64 (filter (fun w => altitude_ft <? height_ft64 w)
                             sorted_winds) ;;
      if row_empty64 lower_wind then
        Ok (bearing_deg64 upper_wind, speed_knots64 upper_wind)
      else if row_empty64 upper_wind then
        Ok (bearing_deg64 lower_wind, speed_knots64 lower_wind)
      else
        let lower_bearing := bearing_deg64 lower_wind in
        let upper_bearing := bearing_deg64 upper_wind in
        let angle_difference := rem (upper_bearing - lower_bearing) 360 in
        let angle_difference :=
          if 180 <? angle_difference then angle_difference - 360
          else angle_difference in
        let fraction :=
          (altitude_ft - height_ft64 lower_wind)
          / (height_ft64 upper_wind - height_ft64 lower_wind) in
        let interpolated_bearing :=
          rem (lower_bearing + fraction * angle_difference) 360 in
        let interpolated_speed :=
          speed_knots64 lower_wind
          + fraction * (speed_knots64 upper_wind - speed_knots64 lower_wind) in
        Ok (interpolated_bearing, interpolated_speed)
  end.

End F64.

(* ------------------------------------------------------------------ *)
(** * Dead reckoning *)

(** [distance_km], with the tick length the program reads from the global
    [UPDATE_INTERVAL] as an argument. *)
Definition distance_km_at (interval : R) (speed : pyfloat) : pyfloat :=
  let speed_kmh := fmul speed (Finite 1.852) in
  fmul speed_kmh (Finite (interval / 3600)).

(** The body of the [try] block up to the NaN test: the destination
    latitude and longitude, in radians. *)
Definition geodesic (lat_radians lon_radians bearing_radians d_over_R : pyfloat)
  : result (pyfloat * pyfloat) :=
  s_lat <- math_sin lat_radians ;;
  c_d <- math_cos d_over_R ;;
  c_lat <- math_cos lat_radians ;;
  s_d <- math_sin d_over_R ;;
  c_b <- math_cos bearing_radians ;;
  new_lat <- math_asin (fadd (fmul s_lat c_d) (fmul (fmul c_lat s_d) c_b)) ;;
  s_b <- math_sin bearing_radians ;;
  s_d' <- math_sin d_over_R ;;
  c_lat' <- math_cos lat_radians ;;
  c_d' <- math_cos d_over_R ;;
  s_lat' <- math_sin lat_radians ;;
  s_new <- math_sin new_lat ;;
  let new_lon :=
    fadd lon_radians
         (math_atan2 (fmul (fmul s_b s_d') c_lat')
                     (fsub c_d' (fmul s_lat' s_new))) in
  Ok (new_lat, new_lon).

(** What [update_position] hands to [geodesic]. *)
Definition geodesic_at (interval : R) (lat lon bearing speed : pyfloat)
  : result (pyfloat * pyfloat) :=
  let normalized_bearing := fmod_const (fadd bearing (Finite 180)) 360 in
  geodesic (math_radians lat) (math_radians lon)
           (math_radians normalized_bearing)
           (fdiv_const (distance_km_at interval speed) EARTH_RADIUS_KM).

Definition update_position_at (interval : R) (lat lon bearing speed : pyfloat)
  : result (pyfloat * pyfloat) :=
  if fle (distance_km_at interval speed) (Finite 0) then Ok (lat, lon)
  else
    match geodesic_at interval lat lon bearing speed with
    | Ok (new_lat, new_lon) =>
        if math_isnan new_lat || math_isnan new_lon then Ok (lat, lon)
        else Ok (math_degrees new_lat, math_degrees new_lon)
    | Raise ValueError => Ok (lat, lon)
    | Raise e => Raise e
    end.

Definition update_position : pyfloat -> pyfloat -> pyfloat -> pyfloat
                             -> result (pyfloat * pyfloat) :=
  update_position_at UPDATE_INTERVAL.

(* ------------------------------------------------------------------ *)
(** * NMEA sentences *)

Local Open Scope string_scope.

(** The decimal digits of a natural number. *)
Definition dec_string (n : N) : string :=
  DecimalString.NilEmpty.string_of_uint (N.to_uint n).

Fixpoint zeros (n : nat) : string :=
  match n with
  | O => ""
  | S n' => String "0" (zeros n')
  end.

(** Zero padding on the left up to [width] characters. *)
Definition zfill (width : nat) (s : string) : string :=
  zeros (width - String.length s) ++ s.

(** [f"{z:0<width>d}"] *)
Definition fmt_d (width : nat) (z : Z) : string :=
  if (z <? 0)%Z then "-" ++ zfill (width - 1) (dec_string (Z.abs_N z))
  else zfill width (dec_string (Z.abs_N z)).

(** Rounding to the nearest integer, ties to even. *)
Definition round_half_even (x : R) : Z :=
  let f := Rfloor x in
  let d := x - IZR f in
  if Rltb d (1 / 2) then f
  else if Rltb (1 / 2) d then (f + 1)%Z
  else if Z.even f then f else (f + 1)%Z.

(** [f"{x:.<prec>f}"], for [prec] at least 1 (the program uses 1, 2 and 6):
    the exact value of [x], rounded half-even to [prec] decimals. *)
Definition fmt_f (prec : nat) (x : pyfloat) : string :=
  match x with
  | NaN => "nan"
  | PInf => "inf"
  | NInf => "-inf"
  | Finite a =>
      let n := Z.to_N (round_half_even (Rabs a * 10 ^ prec)) in
      let p := (10 ^ N.of_nat prec)%N in
      (if Rltb a 0 then "-" else "")
      ++ dec_string (n / p) ++ "." ++ zfill prec (dec_string (n mod p))
  end.

Fixpoint hex_upper (d : Hexadecimal.uint) : string :=
  match d with
  | Hexadecimal.Nil => ""
  | Hexadecimal.D0 d' => String "0" (hex_upper d')
  | Hexadecimal.D1 d' => String "1" (hex_upper d')
  | Hexadecimal.D2 d' => String "2" (hex_upper d')
  | Hexadecimal.D3 d' => String "3" (hex_upper d')
  | Hexadecimal.D4 d' => String "4" (hex_upper d')
  | Hexadecimal.D5 d' => String "5" (hex_upper d')
  | Hexadecimal.D6 d' => String "6" (hex_upper d')
  | Hexadecimal.D7 d' => String "7" (hex_upper d')
  | Hexadecimal.D8 d' => String "8" (hex_upper d')
  | Hexadecimal.D9 d' => String "9" (hex_upper d')
  | Hexadecimal.Da d' => String "A" (hex_upper d')
  | Hexadecimal.Db d' => String "B" (hex_upper d')
  | Hexadecimal.Dc d' => String "C" (hex_upper d')
  | Hexadecimal.Dd d' => String "D" (hex_upper d')
  | Hexadecimal.De d' => String "E" (hex_upper d')
  | Hexadecimal.Df d' => String "F" (hex_upper d')
  end.

(** [f"{n:02X}"] *)
Definition fmt_02X (n : N) : string := zfill 2 (hex_upper (N.to_hex_uint n)).

(** The [for] loop of [calculate_checksum]. *)
Fixpoint checksum_loop (nmea_sentence : string) (checksum : N) : N :=
  match nmea_sentence with
  | EmptyString => checksum
  | String char rest => checksum_loop rest (N.lxor checksum (N_of_ascii char))
  end.

Definition calculate_checksum (nmea_sentence : string) : string :=
  fmt_02X (checksum_loop nmea_sentence 0%N).

(** The fields of [time.gmtime()] that the format string reads. *)
Record struct_time : Type := mkTime {
  tm_hour : N;
  tm_min : N;
  tm_sec : N
}.

(** [time.strftime("%H%M%S.6", now)] *)
Definition time_strftime (now : struct_time) : string :=
  fmt_d 2 (Z.of_N (tm_hour now)) ++ fmt_d 2 (Z.of_N (tm_min now))
  ++ fmt_d 2 (Z.of_N (tm_sec now)) ++ ".6".

Definition create_nmea_sentences (lat lon alt speed : pyfloat)
                                 (now : struct_time) : result (list string) :=
  let alt := fdiv_const alt 3.28084 in
  lat_deg <- py_int (fabs lat) ;;
  let lat_min := fmul (fsub (fabs lat) (Finite (IZR lat_deg))) (Finite 60) in
  let lat_hemisphere := if fge lat (Finite 0) then "N" else "S" in
  lon_deg <- py_int (fabs lon) ;;
  let lon_min := fmul (fsub (fabs lon) (Finite (IZR lon_deg))) (Finite 60) in
  let lon_hemisphere := if fge lon (Finite 0) then "E" else "W" in
  let time_str := time_strftime now in
  let rmc_sentence :=
    "GNRMC," ++ time_str ++ ",A,"
    ++ fmt_d 2 lat_deg ++ fmt_f 6 lat_min ++ "," ++ lat_hemisphere ++ ","
    ++ fmt_d 3 lon_deg ++ fmt_f 6 lon_min ++ "," ++ lon_hemisphere ++ ","
    ++ fmt_f 2 speed ++ ",,,002.7,E,N" in
  let rmc_sentence :=
    "$" ++ rmc_sentence ++ "*" ++ calculate_checksum rmc_sentence in
  let gga_sentence :=
    "GNGGA," ++ time_str ++ ","
    ++ fmt_d 2 lat_deg ++ fmt_f 6 lat_min ++ "," ++ lat_hemisphere ++ ","
    ++ fmt_d 3 lon_deg ++ fmt_f 6 lon_min ++ "," ++ lon_hemisphere
    ++ ",1,08,0.9," ++ fmt_f 1 alt ++ ",M,0.0,M,," in
  let gga_sentence :=
    "$" ++ gga_sentence ++ "*" ++ calculate_checksum gga_sentence in
  let vtg_sentence := "GNVTG,,T,,M," ++ fmt_f 2 speed ++ ",N,,K,N" in
  let vtg_sentence :=
    "$" ++ vtg_sentence ++ "*" ++ calculate_checksum vtg_sentence in
  Ok [rmc_sentence; gga_sentence; vtg_sentence]%list.

(* ------------------------------------------------------------------ *)
(** * The program: start-up and the tick loop *)

(** The module-level variables the loop reads and writes. *)
Record FlightState : Type := mkState {
  balloon_lat : pyfloat;
  balloon_lon : pyfloat;
  balloon_alt_ft : R;
  vertical_speed_mps : R
}.

Definition initial_state : FlightState :=
  {| balloon_lat := Finite 57.89579925190799;
     balloon_lon := Finite 11.745555042076292;
     balloon_alt_ft := 106;
     vertical_speed_mps := 0 |}.

Inductive phase : Type :=
| Initializing
| Running
| Exited.

(** From the top of the module to the [while True]: the wind table has
    been read into [winds_df]; the serial port is opened and the program
    exits if that fails; nothing else is tested. *)
Definition startup (winds_df : list WindSample) (serial_opens : bool) : phase :=
  if serial_opens then Running else Exited.

Definition CRLF : string :=
  String (ascii_of_nat 13) (String (ascii_of_nat 10) EmptyString).

(** One turn of the [while True] loop up to its writes: the new state and
    the lines handed to the serial port.  The writes themselves are in
    [turn] below.  An exception leaves the loop. *)
Definition tick (winds_df : list WindSample) (now : struct_time)
                (st : FlightState) : result (FlightState * list string) :=
  let alt := (balloon_alt_ft st
              + vertical_speed_mps st * UPDATE_INTERVAL * 3.281)%R in
  wind <- interpolate_wind winds_df alt ;;
  let wind_bearing := fst wind in
  let wind_speed_knots := snd wind in
  pos <- update_position (balloon_lat st) (balloon_lon st)
                         (Finite wind_bearing) (Finite wind_speed_knots) ;;
  nmea_sentences <- create_nmea_sentences (fst pos) (snd pos) (Finite alt)
                                          (Finite wind_speed_knots) now ;;
  Ok ({| balloon_lat := fst pos;
         balloon_lon := snd pos;
         balloon_alt_ft := alt;
         vertical_speed_mps := vertical_speed_mps st |},
      map (fun sentence => sentence ++ CRLF) nmea_sentences).

(** [gps_serial.write(...)]: the port takes the line, or the call raises.
    What the port does with a line is part of the environment of a turn. *)
Definition serial_write (port_accepts : string -> bool) (line : string)
  : result unit :=
  if port_accepts line then Ok tt else Raise SerialException.

(** The [for] loop over [nmea_sentences]: the first write that raises ends
    it. *)
Fixpoint write_sentences (port_accepts : string -> bool) (lines : list string)
  : result unit :=
  match lines with
  | nil => Ok tt
  | (line :: rest)%list =>
      _ <- serial_write port_accepts line ;;
      write_sentences port_accepts rest
  end.

(** One turn of the [while True] loop with its writes.  The console line
    and the sleep that end the turn are left out. *)
Definition turn (winds_df : list WindSample) (now : struct_time)
                (port_accepts : string -> bool) (st : FlightState)
  : result (FlightState * list string) :=
  r <- tick winds_df now st ;;
  _ <- write_sentences port_accepts (snd r) ;;
  Ok r.

(** One turn of the loop of [monitor_keyboard]: the new value of
    [vertical_speed_mps], given whether each of the two keys is down.  The
    second key is read only when the first one is up. *)
Definition keyboard_poll (up_pressed down_pressed : bool)
                         (vertical_speed : R) : R :=
  if up_pressed then (vertical_speed + 0.1)%R
  else if down_pressed then (vertical_speed - 0.1)%R
  else vertical_speed.

(** The loop of [monitor_keyboard] over the key states it sees, one pair
    per turn. *)
Fixpoint monitor_keyboard (keys : list (bool * bool)) (vertical_speed : R) : R :=
  match keys with
  | nil => vertical_speed
  | ((up_pressed, down_pressed) :: rest)%list =>
      monitor_keyboard rest (keyboard_poll up_pressed down_pressed vertical_speed)
  end.

(** The two loops run side by side; an execution after start-up is an
    interleaving of their turns. *)
Inductive event : Type :=
| KeyPoll (up_pressed down_pressed : bool)
| Tick (now : struct_time) (port_accepts : string -> bool).

Definition poll_state (up_pressed down_pressed : bool) (st : FlightState)
  : FlightState :=
  {| balloon_lat := balloon_lat st;
     balloon_lon := balloon_lon st;
     balloon_alt_ft := balloon_alt_ft st;
     vertical_speed_mps :=
       keyboard_poll up_pressed down_pressed (vertical_speed_mps st) |}.

(** A finite run of the program: the state reached and everything written
    to the serial port, or the exception that ended the main loop. *)
Fixpoint run (winds_df : list WindSample) (events : list event)
             (st : FlightState) : result (FlightState * list string) :=
  match events with
  | nil => Ok (st, nil)
  | (KeyPoll up_pressed down_pressed :: rest)%list =>
      run winds_df rest (poll_state up_pressed down_pressed st)
  | (Tick now port_accepts :: rest)%list =>
      r <- turn winds_df now port_accepts st ;;
      r' <- run winds_df rest (fst r) ;;
      Ok (fst r', (snd r ++ snd r')%list)
  end.

(** The number of turns of the main loop among the events. *)
Fixpoint count_ticks (events : list event) : nat :=
  match events with
  | nil => O
  | (Tick _ _ :: rest)%list => S (count_ticks rest)
  | (KeyPoll _ _ :: rest)%list => count_ticks rest
  end.

(** The key states seen by the keyboard loop during a run. *)
Fixpoint key_states (events : list event) : list (bool * bool) :=
  match events with
  | nil => nil
  | (KeyPoll up_pressed down_pressed :: rest)%list =>
      ((up_pressed, down_pressed) :: key_states rest)%list
  | (Tick _ _ :: rest)%list => key_states rest
  end.

(** The position is a pair of finite numbers with the latitude in
    [-90, 90]. *)
Definition good_position (st : FlightState) : Prop :=
  exists la lo, balloon_lat st = Finite la /\ balloon_lon st = Finite lo
                /\ -90 <= la <= 90.

(* ------------------------------------------------------------------ *)
(** * The receiving side of a sentence

    These definitions follow the wording of the checksum rule, not the
    emitting code: they are what a receiver does with a sentence. *)

(** The text before the first ['*'] and the text after it. *)
Fixpoint split_at_star (s : string) : option (string * string) :=
  match s with
  | EmptyString => None
  | String c rest =>
      if Ascii.eqb c "*" then Some (EmptyString, rest)
      else match split_at_star rest with
           | Some (body, tail) => Some (String c body, tail)
           | None => None
           end
  end.

(** A sentence [$<body>*<tail>] taken apart. *)
Definition sentence_parts (s : string) : option (string * string) :=
  match s with
  | String c rest => if Ascii.eqb c "$" then split_at_star rest else None
  | EmptyString => None
  end.

(** XOR of the character codes of a body. *)
Fixpoint xor_codes (body : string) : N :=
  match body with
  | EmptyString => 0%N
  | String c rest => N.lxor (N_of_ascii c) (xor_codes rest)
  end.

Definition hex_digit (n : N) : ascii :=
  match n with
  | 0 => "0" | 1 => "1" | 2 => "2" | 3 => "3"
  | 4 => "4" | 5 => "5" | 6 => "6" | 7 => "7"
  | 8 => "8" | 9 => "9" | 10 => "A" | 11 => "B"
  | 12 => "C" | 13 => "D" | 14 => "E" | _ => "F"
  end%N%char.

(** A byte as two uppercase hexadecimal digits. *)
Definition two_hex (n : N) : string :=
  String (hex_digit (n / 16)) (String (hex_digit (n mod 16)) EmptyString).

(** The checksum test of a receiver. *)
Definition checksum_valid (s : string) : bool :=
  match sentence_parts s with
  | Some (body, tail) => String.eqb (two_hex (xor_codes body)) tail
  | None => false
  end.

(** A line on the serial port: a sentence that passes the checksum test,
    followed by CR LF. *)
Definition valid_line (line : string) : Prop :=
  exists sentence, line = sentence ++ CRLF /\ checksum_valid sentence = true.

(** The comma-separated fields of a text. *)
Fixpoint split_commas (s : string) : list string :=
  match s with
  | EmptyString => [EmptyString]%list
  | String c rest =>
      if Ascii.eqb c "," then (EmptyString :: split_commas rest)%list
      else match split_commas rest with
           | (f :: fs)%list => (String c f :: fs)%list
           | nil => [String c EmptyString]%list
           end
  end.

(** The fields of the body of a sentence. *)
Definition nmea_fields (s : string) : list string :=
  match sentence_parts s with
  | Some (body, _) => split_commas body
  | None => nil
  end.

(** The place of a character in a text, counted from [i]. *)
Fixpoint index_from (i : N) (c : ascii) (s : string) : option N :=
  match s with
  | EmptyString => None
  | String x rest =>
      if Ascii.eqb c x then Some i else index_from (N.succ i) c rest
  end.

(** The value of an uppercase hexadecimal digit. *)
Definition hex_value (c : ascii) : option N :=
  index_from 0 c "0123456789ABCDEF".

(** Reading a checksum of two uppercase hexadecimal digits. *)
Definition parse_two_hex (s : string) : option N :=
  match s with
  | String a (String b EmptyString) =>
      match hex_value a, hex_value b with
      | Some x, Some y => Some (16 * x + y)%N
      | _, _ => None
      end
  | _ => None
  end.

(** The fields of the three bodies, read off the format strings of
    [create_nmea_sentences]. *)
Definition rmc_fields (time_str lat_str lat_h lon_str lon_h speed_str : string)
  : list string :=
  ["GNRMC"; time_str; "A"; lat_str; lat_h; lon_str; lon_h; speed_str;
   ""; ""; "002.7"; "E"; "N"]%list.

Definition gga_fields (time_str lat_str lat_h lon_str lon_h alt_str : string)
  : list string :=
  ["GNGGA"; time_str; lat_str; lat_h; lon_str; lon_h; "1"; "08"; "0.9";
   alt_str; "M"; "0.0"; "M"; ""; ""]%list.

Definition vtg_fields (speed_str : string) : list string :=
  ["GNVTG"; ""; "T"; ""; "M"; speed_str; "N"; ""; "K"; "N"]%list.

(** No character of [s] is [x]. *)
Fixpoint free_of (x : ascii) (s : string) : bool :=
  match s with
  | EmptyString => true
  | String c rest => negb (Ascii.eqb c x) && free_of x rest
  end.

(** A field of a sentence holds neither a comma nor a star. *)
Definition clean_field (s : string) : bool := free_of "," s && free_of "*" s.

(* ================================================================== *)
(** * Properties *)

Local Open Scope list_scope.
Local Open Scope R_scope.

(* ------------------------------------------------------------------ *)
(** ** Comparisons and the remainder *)

Lemma Rleb_true (x y : R) : Rleb x y = true <-> x <= y.
Proof. unfold Rleb. destruct (Rle_dec x y); split; intros; try lra; congruence. Qed.

Lemma Rleb_false (x y : R) : Rleb x y = false <-> y < x.
Proof. unfold Rleb. destruct (Rle_dec x y); split; intros; try lra; congruence. Qed.

Lemma Rltb_true (x y : R) : Rltb x y = true <-> x < y.
Proof. unfold Rltb. destruct (Rlt_dec x y); split; intros; try lra; congruence. Qed.

Lemma Rltb_false (x y : R) : Rltb x y = false <-> y <= x.
Proof. unfold Rltb. destruct (Rlt_dec x y); split; intros; try lra; congruence. Qed.

Lemma Reqb_true (x y : R) : Reqb x y = true <-> x = y.
Proof. unfold Reqb. destruct (Req_dec_T x y); split; intros; try lra; congruence. Qed.

Lemma Reqb_false (x y : R) : Reqb x y = false <-> x <> y.
Proof. unfold Reqb. destruct (Req_dec_T x y); split; intros; try lra; congruence. Qed.

(** Decide a comparison between real numbers that [lra] can settle. *)
Ltac rcmp :=
  repeat match goal with
  | |- context [Rltb ?a ?b] =>
      first [ rewrite (proj2 (Rltb_true a b)) by lra
            | rewrite (proj2 (Rltb_false a b)) by lra ]
  | |- context [Rleb ?a ?b] =>
      first [ rewrite (proj2 (Rleb_true a b)) by lra
            | rewrite (proj2 (Rleb_false a b)) by lra ]
  | |- context [Reqb ?a ?b] =>
      first [ rewrite (proj2 (Reqb_true a b)) by lra
            | rewrite (proj2 (Reqb_false a b)) by lra ]
  end.

Lemma Rfloor_bounds (x : R) : IZR (Rfloor x) <= x < IZR (Rfloor x) + 1.
Proof. unfold Rfloor. destruct (base_Int_part x). lra. Qed.

Lemma Rfloor_unique (x : R) (k : Z) : IZR k <= x < IZR k + 1 -> Rfloor x = k.
Proof.
  intros H. unfold Rfloor. symmetry. apply Int_part_spec. lra.
Qed.

Lemma pymod_range (x m : R) : 0 < m -> 0 <= pymod x m < m.
Proof.
  intros Hm. unfold pymod.
  pose proof (Rfloor_bounds (x / m)) as [Hlo Hhi].
  assert (Hx : x = m * (x / m)) by (field; lra).
  split.
  - apply (Rmult_le_compat_l m) in Hlo; lra.
  - apply (Rmult_lt_compat_l m) in Hhi; lra.
Qed.

Lemma pymod_unique (x m : R) (k : Z) :
  0 < m -> 0 <= x - m * IZR k < m -> pymod x m = x - m * IZR k.
Proof.
  intros Hm [Hlo Hhi]. unfold pymod.
  rewrite (Rfloor_unique (x / m) k); [reflexivity|].
  split.
  - apply (Rmult_le_reg_l m); [lra|]. replace (m * (x / m)) with x by (field; lra). lra.
  - apply (Rmult_lt_reg_l m); [lra|]. replace (m * (x / m)) with x by (field; lra). lra.
Qed.

(* ------------------------------------------------------------------ *)
(** ** The sorted wind table *)

Lemma insert_by_height_In (w v : WindSample) (l : list WindSample) :
  In v (insert_by_height w l) <-> v = w \/ In v l.
Proof.
  induction l as [|u l IH]; simpl.
  - intuition congruence.
  - destruct (Rleb (height_ft w) (height_ft u)); simpl.
    + intuition congruence.
    + rewrite IH. intuition congruence.
Qed.

Lemma sort_values_In (v : WindSample) (l : list WindSample) :
  In v (sort_values l) <-> In v l.
Proof.
  induction l as [|u l IH]; simpl; [tauto|].
  rewrite insert_by_height_In, IH. intuition congruence.
Qed.

Lemma insert_by_height_sorted (w : WindSample) (l : list WindSample) :
  StronglySorted height_le l -> StronglySorted height_le (insert_by_height w l).
Proof.
  induction 1 as [|u l Hs IH Hall]; simpl.
  - constructor; constructor.
  - destruct (Rleb (height_ft w) (height_ft u)) eqn:E.
    + apply Rleb_true in E.
      constructor; [constructor; assumption|].
      constructor; [exact E|].
      rewrite Forall_forall in *. intros v Hv. specialize (Hall v Hv).
      unfold height_le in *. lra.
    + apply Rleb_false in E.
      constructor; [exact IH|].
      rewrite Forall_forall in *. intros v Hv.
      apply insert_by_height_In in Hv. destruct Hv as [->|Hv].
      * unfold height_le. lra.
      * auto.
Qed.

Lemma sort_values_sorted (l : list WindSample) :
  StronglySorted height_le (sort_values l).
Proof.
  induction l as [|w l IH]; simpl.
  - constructor.
  - apply insert_by_height_sorted, IH.
Qed.

Lemma filter_none {A : Type} (p : A -> bool) (l : list A) :
  (forall x, In x l -> p x = false) -> filter p l = [].
Proof.
  induction l as [|a l IH]; simpl; intros H; [reflexivity|].
  rewrite (H a) by (left; reflexivity). apply IH. intros x Hx. apply H. right. exact Hx.
Qed.

Lemma filter_all {A : Type} (p : A -> bool) (l : list A) :
  (forall x, In x l -> p x = true) -> filter p l = l.
Proof.
  induction l as [|a l IH]; simpl; intros H; [reflexivity|].
  rewrite (H a) by (left; reflexivity). f_equal. apply IH. intros x Hx. apply H. right. exact Hx.
Qed.

Lemma iloc_last_snoc (l : list WindSample) (w : WindSample) :
  iloc_last (l ++ [w]) = Ok w.
Proof. unfold iloc_last. rewrite rev_app_distr. reflexivity. Qed.

(** Below every sample the query fails on the row "last below". *)
Lemma interpolate_wind_below (winds : list WindSample) (alt : R) :
  (forall w, In w winds -> alt < height_ft w) ->
  interpolate_wind winds alt = Raise IndexError.
Proof.
  intros H. unfold interpolate_wind.
  rewrite filter_none.
  2:{ intros x Hx. rewrite sort_values_In in Hx. apply Reqb_false.
      specialize (H x Hx). lra. }
  rewrite filter_none.
  2:{ intros x Hx. rewrite sort_values_In in Hx. apply Rltb_false.
      specialize (H x Hx). lra. }
  reflexivity.
Qed.

(** Above every sample the query fails on the row "first above". *)
Lemma interpolate_wind_above (winds : list WindSample) (alt : R) :
  (forall w, In w winds -> height_ft w < alt) ->
  interpolate_wind winds alt = Raise IndexError.
Proof.
  intros H. unfold interpolate_wind.
  rewrite filter_none.
  2:{ intros x Hx. rewrite sort_values_In in Hx. apply Reqb_false.
      specialize (H x Hx). lra. }
  rewrite (filter_none (fun w => Rltb alt (height_ft w))).
  2:{ intros x Hx. rewrite sort_values_In in Hx. apply Rltb_false.
      specialize (H x Hx). lra. }
  unfold iloc_last. destruct (rev _); reflexivity.
Qed.

Lemma sorted_split (l1 l2 : list WindSample) (x : WindSample) :
  StronglySorted height_le (l1 ++ x :: l2) ->
  Forall (fun y => height_le y x) l1 /\ Forall (height_le x) l2.
Proof.
  induction l1 as [|a l1 IH]; simpl; intros H; inversion H as [|? ? Hs Hall]; subst.
  - split; [constructor | assumption].
  - destruct (IH Hs) as [H1 H2]. split; [|assumption].
    constructor; [|assumption].
    rewrite Forall_forall in Hall. apply Hall. apply in_or_app. right. left. reflexivity.
Qed.

(** The three selections of [interpolate_wind] when the altitude falls
    strictly between two neighbours of the sorted table. *)
Lemma selections_between (before after : list WindSample)
      (lower upper : WindSample) (alt : R) :
  StronglySorted height_le (before ++ lower :: upper :: after) ->
  height_ft lower < alt < height_ft upper ->
  let l := before ++ lower :: upper :: after in
  filter (fun w => Reqb (height_ft w) alt) l = []
  /\ filter (fun w => Rltb (height_ft w) alt) l = before ++ [lower]
  /\ filter (fun w => Rltb alt (height_ft w)) l = upper :: after.
Proof.
  intros Hs [Hlo Hhi] l.
  destruct (sorted_split _ _ _ Hs) as [Hb _].
  assert (Hs' : StronglySorted height_le ((before ++ [lower]) ++ upper :: after))
    by (rewrite <- app_assoc; exact Hs).
  destruct (sorted_split _ _ _ Hs') as [_ Ha].
  rewrite Forall_forall in Hb, Ha. unfold height_le in Hb, Ha.
  assert (Hbelow : forall w, In w (before ++ [lower]) -> height_ft w < alt).
  { intros w Hw. apply in_app_or in Hw. destruct Hw as [Hw|[<-|[]]]; [|lra].
    specialize (Hb w Hw). lra. }
  assert (Habove : forall w, In w (upper :: after) -> alt < height_ft w).
  { intros w [<-|Hw]; [lra|]. specialize (Ha w Hw). lra. }
  assert (El : l = (before ++ [lower]) ++ upper :: after)
    by (unfold l; rewrite <- app_assoc; reflexivity).
  rewrite El, !(filter_app _ (before ++ [lower]) (upper :: after)). repeat split.
  - rewrite (filter_none _ (before ++ [lower])), (filter_none _ (upper :: after)).
    + reflexivity.
    + intros w Hw. apply Reqb_false. specialize (Habove w Hw). lra.
    + intros w Hw. apply Reqb_false. specialize (Hbelow w Hw). lra.
  - rewrite (filter_all _ (before ++ [lower])), (filter_none _ (upper :: after)).
    + apply app_nil_r.
    + intros w Hw. apply Rltb_false. specialize (Habove w Hw). lra.
    + intros w Hw. apply Rltb_true. auto.
  - rewrite (filter_none _ (before ++ [lower])), (filter_all _ (upper :: after)).
    + reflexivity.
    + intros w Hw. apply Rltb_true. auto.
    + intros w Hw. apply Rltb_false. specialize (Hbelow w Hw). lra.
Qed.

(** C1 (defect): outside the sampled range the query does not clamp.  For a
    non-empty table and an altitude strictly below every sample, or strictly
    above every sample, [interpolate_wind] raises [IndexError]: the row
    "last below" (resp. "first above") is taken with [iloc] from an empty
    selection before the clamping tests are reached. *)
Theorem interpolate_wind_outside_raises (winds : list WindSample) (alt : R) :
  winds <> [] ->
  (forall w, In w winds -> alt < height_ft w)
  \/ (forall w, In w winds -> height_ft w < alt) ->
  interpolate_wind winds alt = Raise IndexError.
Proof.
  intros _ [H|H].
  - apply interpolate_wind_below, H.
  - apply interpolate_wind_above, H.
Qed.

Lemma interpolate_wind_outside_raises_witness :
  interpolate_wind [mkWind 1000 90 5] 500 = Raise IndexError
  /\ interpolate_wind [mkWind 1000 90 5] 1500 = Raise IndexError.
Proof.
  split; apply interpolate_wind_outside_raises;
    try discriminate.
  - left. intros w [<-|[]]. simpl. lra.
  - right. intros w [<-|[]]. simpl. lra.
Defined.

Module DoubleArithmetic.
Import PrimFloat.
Local Open Scope float_scope.

(** C4 (claim as stated fails): on doubles the bearing can be 360.  With
    samples at 1000 ft (bearing 0) and 2000 ft (bearing 270) and the
    altitude one unit in the last place above 1000, the operand of the last
    [%] is a tiny negative number and [%] rounds it up to exactly 360. *)
Lemma interpolated_bearing_reaches_360 :
  let winds := [F64.mkWind64 1000 0 5; F64.mkWind64 2000 270 10] in
  let altitude := next_up 1000 in
  (1000 <? altitude) = true
  /\ (altitude <? 2000) = true
  /\ (exists speed, F64.interpolate_wind64 winds altitude = Ok (360, speed))
  /\ (360 <? 360) = false.
Proof.
  cbv zeta. repeat split; try (vm_compute; reflexivity).
  vm_compute. eexists. reflexivity.
Qed.

End DoubleArithmetic.

(** C4 (amended): strictly between two neighbouring samples of the sorted
    table the bearing is [(lower.bearing + fraction * delta) mod 360], where
    [delta] is [(upper.bearing - lower.bearing) mod 360] less 360 when that
    exceeds 180; the bearing lies in [0, 360], the end 360 being reached
    only through the rounding of doubles (see [F64] and
    [DoubleArithmetic.interpolated_bearing_reaches_360]); the speed is
    interpolated linearly. *)
Theorem interpolate_wind_between
        (winds before after : list WindSample) (lower upper : WindSample)
        (alt : R) :
  sort_values winds = before ++ lower :: upper :: after ->
  height_ft lower < alt < height_ft upper ->
  exists delta bearing speed,
    interpolate_wind winds alt = Ok (bearing, speed)
    /\ (let d := pymod (bearing_deg upper - bearing_deg lower) 360 in
        (180 < d -> delta = d - 360) /\ (d <= 180 -> delta = d))
    /\ (let fraction :=
          (alt - height_ft lower) / (height_ft upper - height_ft lower) in
        bearing = pymod (bearing_deg lower + fraction * delta) 360
        /\ speed = speed_knots lower
                   + fraction * (speed_knots upper - speed_knots lower))
    /\ 0 <= bearing <= 360.
Proof.
  intros Hsort Halt.
  pose proof (sort_values_sorted winds) as Hs. rewrite Hsort in Hs.
  destruct (selections_between _ _ _ _ _ Hs Halt) as (E1 & E2 & E3).
  unfold interpolate_wind. rewrite Hsort, E1, E2, E3, iloc_last_snoc.
  cbn [bind iloc_first row_empty].
  set (d := pymod (bearing_deg upper - bearing_deg lower) 360).
  exists (if Rltb 180 d then d - 360 else d).
  eexists. eexists. split; [reflexivity|].
  split; [|split; [split; reflexivity|]].
  2:{ match goal with
      | |- 0 <= pymod ?x ?m <= _ =>
          pose proof (pymod_range x m ltac:(lra)); lra
      end. }
  cbv zeta. split; intros Hd.
  - rewrite (proj2 (Rltb_true _ _)) by exact Hd. reflexivity.
  - rewrite (proj2 (Rltb_false _ _)) by exact Hd. reflexivity.
Qed.

(** The example of C4: 350 degrees at 10000 ft and 10 degrees at 11000 ft
    give 0 degrees at 10500 ft. *)
Lemma interpolate_wind_between_witness :
  exists speed,
    interpolate_wind [mkWind 10000 350 20; mkWind 11000 10 30] 10500
    = Ok (0, speed).
Proof.
  destruct (interpolate_wind_between
              [mkWind 10000 350 20; mkWind 11000 10 30] [] []
              (mkWind 10000 350 20) (mkWind 11000 10 30) 10500)
    as (delta & bearing & speed & E & Hd & Hb & _).
  - simpl. rcmp. reflexivity.
  - simpl. lra.
  - exists speed. rewrite E. cbn [height_ft bearing_deg speed_knots] in Hd, Hb.
    assert (Ed : pymod (10 - 350) 360 = 20).
    { rewrite (pymod_unique _ _ (-1)%Z); lra. }
    cbv zeta in Hd. rewrite Ed in Hd. destruct Hd as [_ Hd].
    rewrite (Hd ltac:(lra)) in Hb. destruct Hb as [Hb _].
    rewrite (pymod_unique _ _ 1%Z) in Hb by lra.
    f_equal. f_equal. lra.
Defined.

(* ------------------------------------------------------------------ *)
(** ** Dead reckoning *)

Lemma PI_bounds : 3.1415 < PI < 3.1416.
Proof.
  pose proof (PI_2_3_7_ineq 2) as H.
  unfold sum_f_R0, tg_alt, PI_2_3_7_tg, Ratan_seq in H. simpl in H.
  lra.
Qed.

(** The argument handed to [math.asin] is a sine: it lies in [-1, 1]. *)
Lemma asin_arg_bound (a b h : R) :
  -1 <= sin a * cos b + cos a * sin b * cos h <= 1.
Proof.
  pose proof (sin2_cos2 a) as Ha. pose proof (sin2_cos2 b) as Hb.
  pose proof (COS_bound h) as Hh.
  unfold Rsqr in *.
  set (x := sin a) in *. set (y := cos a) in *.
  set (u := cos b) in *. set (v := sin b) in *. set (w := cos h) in *.
  assert (Hid : 1 - (x * u + y * v * w) * (x * u + y * v * w)
                = (x * v * w - y * u) * (x * v * w - y * u)
                  + v * v * (1 - w * w)).
  { replace 1 with ((x * x + y * y) * (v * v + u * u)) at 1
      by (rewrite Ha, Hb; ring).
    replace (v * v * (1 - w * w))
      with ((x * x + y * y) * (v * v) * (1 - w * w)) by (rewrite Ha; ring).
    ring. }
  assert (H1 : 0 <= (x * v * w - y * u) * (x * v * w - y * u))
    by exact (Rle_0_sqr _).
  assert (H2 : 0 <= v * v * (1 - w * w))
    by (apply Rmult_le_pos; [exact (Rle_0_sqr _) | nra]).
  nra.
Qed.


(** The geodesic on a finite latitude, bearing and distance: no exception,
    a finite latitude, and the longitude moved by a finite angle. *)
Lemma geodesic_finite (lat_r b_r d : R) (lon_radians : pyfloat) :
  let new_lat :=
    asin (sin lat_r * cos d + cos lat_r * sin d * cos b_r) in
  geodesic (Finite lat_r) lon_radians (Finite b_r) (Finite d)
  = Ok (Finite new_lat,
        fadd lon_radians
             (Finite (atan2 (sin b_r * sin d * cos lat_r)
                            (cos d - sin lat_r * sin new_lat)))).
Proof.
  intros new_lat. unfold geodesic.
  cbn [math_sin math_cos bind fmul fadd math_asin].
  pose proof (asin_arg_bound lat_r d b_r) as [H1 H2].
  rewrite (proj2 (Rleb_true _ _) H1), (proj2 (Rleb_true _ _) H2).
  cbn [andb bind math_sin fmul fsub fopp fadd math_atan2].
  reflexivity.
Qed.

(** [update_position] on finite arguments with a positive distance. *)
Lemma update_position_at_finite (dt lat lon bearing speed : R) :
  0 < speed * 1.852 * (dt / 3600) ->
  let heading := pymod (bearing + 180) 360 in
  let d := speed * 1.852 * (dt / 3600) / 6371 in
  let lat_r := lat * (PI / 180) in
  let lon_r := lon * (PI / 180) in
  let h_r := heading * (PI / 180) in
  let new_lat := asin (sin lat_r * cos d + cos lat_r * sin d * cos h_r) in
  let new_lon := lon_r + atan2 (sin h_r * sin d * cos lat_r)
                               (cos d - sin lat_r * sin new_lat) in
  update_position_at dt (Finite lat) (Finite lon) (Finite bearing) (Finite speed)
  = Ok (Finite (new_lat * (180 / PI)), Finite (new_lon * (180 / PI))).
Proof.
  intros Hd heading d lat_r lon_r h_r new_lat new_lon.
  unfold update_position_at, geodesic_at, distance_km_at, EARTH_RADIUS_KM.
  cbn [fmul fle fadd fmod_const math_radians fdiv_const].
  rewrite (proj2 (Rleb_false _ _)) by exact Hd.
  rewrite geodesic_finite. reflexivity.
Qed.

(** The distance of one knot over one hour, as an angle in degrees. *)
Lemma one_knot_hour_degrees :
  0.01665 < 1.852 / 6371 * (180 / PI) < 0.01667.
Proof.
  pose proof PI_bounds as [Hlo Hhi].
  assert (Hpos : 0 < / PI) by (apply Rinv_0_lt_compat; lra).
  assert (Hone : PI * / PI = 1) by (apply Rinv_r; lra).
  unfold Rdiv. split; nra.
Qed.

(** The formula of [update_position_at_finite] at latitude 0, longitude 0,
    wind bearing 0, one knot, one hour. *)
Lemma example_values :
  let heading := pymod (0 + 180) 360 in
  let d := 1 * 1.852 * (3600 / 3600) / 6371 in
  let lat_r := 0 * (PI / 180) in
  let lon_r := 0 * (PI / 180) in
  let h_r := heading * (PI / 180) in
  let new_lat := asin (sin lat_r * cos d + cos lat_r * sin d * cos h_r) in
  let new_lon := lon_r + atan2 (sin h_r * sin d * cos lat_r)
                               (cos d - sin lat_r * sin new_lat) in
  new_lat * (180 / PI) = - (1.852 / 6371 * (180 / PI))
  /\ new_lon * (180 / PI) = 0.
Proof.
  cbv zeta. pose proof PI_bounds as HPI.
  assert (Eh : pymod (0 + 180) 360 * (PI / 180) = PI).
  { rewrite (pymod_unique _ _ 0%Z) by lra. lra. }
  assert (Ez : 0 * (PI / 180) = 0) by lra.
  assert (Ed : 1 * 1.852 * (3600 / 3600) / 6371 = 1.852 / 6371) by lra.
  rewrite Eh, Ez, Ed, sin_0, cos_0, cos_PI, sin_PI.
  set (d := 1.852 / 6371).
  assert (Hd : 0 < d < 1 / 1000) by (unfold d; lra).
  replace (0 * cos d + 1 * sin d * -1) with (- sin d) by ring.
  rewrite asin_opp, asin_sin by lra.
  split; [lra|].
  replace (0 * sin d * 1) with 0 by ring.
  replace (cos d - 0 * sin (- d)) with (cos d) by ring.
  assert (Hc : 0 < cos d) by (apply cos_gt_0; lra).
  unfold atan2. rcmp.
  replace (0 / cos d) with 0 by (unfold Rdiv; ring).
  rewrite atan_0. lra.
Qed.

(** C5 (claim as stated fails): with wind bearing 0, one knot and a one-hour
    step from (0, 0) the point moves SOUTH: the latitude becomes about
    -0.01666 degrees, not +0.01667. *)
Lemma update_position_bearing0_moves_south :
  exists la,
    update_position_at 3600 (Finite 0) (Finite 0) (Finite 0) (Finite 1)
    = Ok (Finite la, Finite 0)
    /\ -0.01667 < la < -0.01665.
Proof.
  exists (- (1.852 / 6371 * (180 / PI))).
  rewrite update_position_at_finite by lra.
  destruct example_values as [E1 E2]. cbv zeta in E1, E2.
  rewrite E1, E2. split; [reflexivity|].
  pose proof one_knot_hour_degrees. lra.
Qed.

(** C5 (amended): for finite inputs with positive wind speed and a positive
    tick length, the point moves along [heading = (bearing + 180) mod 360]
    by [speed * 1.852 * (dt / 3600)] km on a sphere of radius 6371 km, with
    the destination latitude and longitude of the direct geodesic formula,
    converted back to degrees. *)
Theorem update_position_geodesic (dt lat lon bearing speed : R) :
  0 < speed -> 0 < dt ->
  let heading := pymod (bearing + 180) 360 in
  let d := speed * 1.852 * (dt / 3600) / 6371 in
  let lat_r := lat * (PI / 180) in
  let lon_r := lon * (PI / 180) in
  let h_r := heading * (PI / 180) in
  let new_lat := asin (sin lat_r * cos d + cos lat_r * sin d * cos h_r) in
  let new_lon := lon_r + atan2 (sin h_r * sin d * cos lat_r)
                               (cos d - sin lat_r * sin new_lat) in
  update_position_at dt (Finite lat) (Finite lon) (Finite bearing) (Finite speed)
  = Ok (Finite (new_lat * (180 / PI)), Finite (new_lon * (180 / PI))).
Proof.
  intros Hs Hdt. apply update_position_at_finite.
  assert (0 < dt / 3600) by lra.
  assert (0 < speed * 1.852) by lra.
  apply Rmult_lt_0_compat; assumption.
Qed.

(** The example of C5 on the code: bearing 0 is wind from the north, the
    point drifts south by 1.852 / 6371 radians, longitude unchanged. *)
Lemma update_position_geodesic_witness :
  0 < 1 /\ 0 < 3600
  /\ update_position_at 3600 (Finite 0) (Finite 0) (Finite 0) (Finite 1)
     = Ok (Finite (- (1.852 / 6371 * (180 / PI))), Finite 0).
Proof.
  split; [lra|]. split; [lra|].
  rewrite (update_position_geodesic 3600 0 0 0 1) by lra.
  destruct example_values as [E1 E2]. cbv zeta in E1, E2.
  rewrite E1, E2. reflexivity.
Defined.

Lemma distance_km_at_nonpositive (dt : R) (speed : pyfloat) :
  0 < dt -> fle speed (Finite 0) = true ->
  fle (distance_km_at dt speed) (Finite 0) = true.
Proof.
  intros Hdt Hs. unfold distance_km_at.
  destruct speed as [s| | |]; cbn in Hs |- *; try discriminate.
  - apply Rleb_true in Hs. apply Rleb_true.
    assert (0 < 1.852 * (dt / 3600)) by lra.
    rewrite Rmult_assoc. nra.
  - unfold inf_times. rcmp. cbn. unfold inf_times. rcmp. reflexivity.
Qed.

(** C9: when the travel distance is not positive, and in particular when
    the speed is zero or negative (for a positive tick length), the input
    position is returned as it is and nothing is raised. *)
Theorem update_position_noop (dt : R) (lat lon bearing speed : pyfloat) :
  fle (distance_km_at dt speed) (Finite 0) = true
  \/ (0 < dt /\ fle speed (Finite 0) = true) ->
  update_position_at dt lat lon bearing speed = Ok (lat, lon).
Proof.
  intros H.
  assert (Hd : fle (distance_km_at dt speed) (Finite 0) = true).
  { destruct H as [H|[Hdt Hs]]; [exact H|].
    apply distance_km_at_nonpositive; assumption. }
  unfold update_position_at. rewrite Hd. reflexivity.
Qed.

Lemma update_position_noop_witness :
  update_position (Finite 10) (Finite 20) (Finite 90) (Finite 0)
  = Ok (Finite 10, Finite 20).
Proof.
  apply update_position_noop. right. split.
  - unfold UPDATE_INTERVAL. lra.
  - cbn. rcmp. reflexivity.
Defined.

(** Each call of the [math] module in the [try] block raises nothing but
    [ValueError]. *)
Lemma math_sin_raises (x : pyfloat) (e : exn) :
  math_sin x = Raise e -> e = ValueError.
Proof. destruct x; cbn; congruence. Qed.

Lemma math_cos_raises (x : pyfloat) (e : exn) :
  math_cos x = Raise e -> e = ValueError.
Proof. destruct x; cbn; congruence. Qed.

Lemma math_asin_raises (x : pyfloat) (e : exn) :
  math_asin x = Raise e -> e = ValueError.
Proof.
  destruct x as [a| | |]; cbn; try congruence.
  destruct (Rleb (-1) a && Rleb a 1); congruence.
Qed.

Lemma bind_raises {A B : Type} (m : result A) (k : A -> result B) (e : exn) :
  bind m k = Raise e ->
  m = Raise e \/ exists a, m = Ok a /\ k a = Raise e.
Proof.
  destruct m as [a|e']; cbn; intros H.
  - right. exists a. split; [reflexivity|exact H].
  - left. congruence.
Qed.

Lemma geodesic_raises (lat_r lon_r b_r d : pyfloat) (e : exn) :
  geodesic lat_r lon_r b_r d = Raise e -> e = ValueError.
Proof.
  unfold geodesic. intros H.
  repeat match type of H with
  | bind _ _ = Raise _ =>
      apply bind_raises in H; destruct H as [H|(? & _ & H)]
  | math_sin _ = Raise _ => apply math_sin_raises in H; exact H
  | math_cos _ = Raise _ => apply math_cos_raises in H; exact H
  | math_asin _ = Raise _ => apply math_asin_raises in H; exact H
  end.
  discriminate H.
Qed.

(** C10: [update_position] always returns a position; when the geodesic
    computation raises (a domain error of the [math] module), the position
    returned is the input position. *)
Theorem update_position_total (dt : R) (lat lon bearing speed : pyfloat) :
  exists p,
    update_position_at dt lat lon bearing speed = Ok p
    /\ (forall e, geodesic_at dt lat lon bearing speed = Raise e ->
                  p = (lat, lon)).
Proof.
  unfold update_position_at.
  destruct (fle (distance_km_at dt speed) (Finite 0)).
  - exists (lat, lon). split; [reflexivity|]. intros; reflexivity.
  - destruct (geodesic_at dt lat lon bearing speed) as [[new_lat new_lon]|e] eqn:E.
    + destruct (math_isnan new_lat || math_isnan new_lon); eexists;
        (split; [reflexivity|]); intros; discriminate.
    + unfold geodesic_at in E. apply geodesic_raises in E. subst e.
      exists (lat, lon). split; [reflexivity|]. intros; reflexivity.
Qed.

(** An infinite latitude: [math.sin] raises, the input comes back. *)
Lemma update_position_total_witness :
  geodesic_at UPDATE_INTERVAL PInf (Finite 0) (Finite 0) (Finite 1)
  = Raise ValueError
  /\ update_position PInf (Finite 0) (Finite 0) (Finite 1)
     = Ok (PInf, Finite 0).
Proof.
  assert (E : geodesic_at UPDATE_INTERVAL PInf (Finite 0) (Finite 0) (Finite 1)
              = Raise ValueError).
  { unfold geodesic_at, math_radians. cbn [fmul]. unfold inf_times.
    pose proof PI_bounds. rcmp. reflexivity. }
  split; [exact E|].
  destruct (update_position_total UPDATE_INTERVAL PInf (Finite 0) (Finite 0)
                                  (Finite 1)) as (p & Ep & Hp).
  unfold update_position. rewrite Ep. f_equal. exact (Hp _ E).
Defined.


Lemma degrees_le (a b : R) : a <= b -> a * (180 / PI) <= b * (180 / PI).
Proof.
  intros H. apply Rmult_le_compat_r; [|exact H].
  pose proof PI_bounds. apply Rlt_le, Rdiv_lt_0_compat; lra.
Qed.

Lemma degrees_lt (a b : R) : a < b -> a * (180 / PI) < b * (180 / PI).
Proof.
  intros H. apply Rmult_lt_compat_r; [|exact H].
  pose proof PI_bounds. apply Rdiv_lt_0_compat; lra.
Qed.

(** Heading due south over a short distance [d]: the latitude drops by
    [d] radians. *)
Lemma south_latitude (d : R) :
  0 < d < 1 -> asin (sin 0 * cos d + cos 0 * sin d * cos PI) = - d.
Proof.
  intros Hd. pose proof PI_bounds.
  rewrite sin_0, cos_0, cos_PI.
  replace (0 * cos d + 1 * sin d * -1) with (- sin d) by ring.
  rewrite asin_opp, asin_sin by lra. reflexivity.
Qed.


(** C7 (claim as stated fails): an infinite input longitude gives an
    infinite computed longitude; it passes the NaN test and the function
    returns a new latitude with it, not the input position. *)
Lemma update_position_infinite_not_caught :
  exists la new_lat,
    geodesic_at UPDATE_INTERVAL (Finite 0) PInf (Finite 0) (Finite 1)
    = Ok (new_lat, PInf)
    /\ math_isfinite PInf = false
    /\ update_position (Finite 0) PInf (Finite 0) (Finite 1)
       = Ok (Finite la, PInf)
    /\ la <> 0.
Proof.
  pose proof PI_bounds as HPI.
  set (d := 1 * 1.852 * (UPDATE_INTERVAL / 3600) / 6371).
  assert (Hd : 0 < d < 1) by (unfold d, UPDATE_INTERVAL; lra).
  assert (Eh : pymod (0 + 180) 360 * (PI / 180) = PI).
  { rewrite (pymod_unique _ _ 0%Z) by lra. lra. }
  assert (Ez : 0 * (PI / 180) = 0) by lra.
  assert (G : geodesic_at UPDATE_INTERVAL (Finite 0) PInf (Finite 0) (Finite 1)
              = Ok (Finite (- d), PInf)).
  { unfold geodesic_at, distance_km_at, EARTH_RADIUS_KM, math_radians.
    cbn [fmul fadd fmod_const fdiv_const]. unfold inf_times. rcmp.
    rewrite geodesic_finite. fold d. rewrite Eh, Ez, south_latitude by exact Hd.
    reflexivity. }
  exists (- d * (180 / PI)), (Finite (- d)).
  split; [exact G|]. split; [reflexivity|]. split.
  - unfold update_position, update_position_at. rewrite G.
    unfold distance_km_at. cbn [fmul fle]. rewrite (proj2 (Rleb_false _ _)).
    + assert (Hdeg : 0 < 180 / PI) by (apply Rdiv_lt_0_compat; lra).
      cbn [math_isnan orb math_degrees fmul]. unfold inf_times. rcmp.
      reflexivity.
    + unfold UPDATE_INTERVAL. lra.
  - pose proof (degrees_lt (- d) 0 ltac:(lra)). lra.
Qed.

(** C7 (amended): when the computed latitude or longitude is NaN, the input
    position is returned as it is and nothing is raised. *)
Theorem update_position_nan_guard
        (dt : R) (lat lon bearing speed new_lat new_lon : pyfloat) :
  geodesic_at dt lat lon bearing speed = Ok (new_lat, new_lon) ->
  math_isnan new_lat = true \/ math_isnan new_lon = true ->
  update_position_at dt lat lon bearing speed = Ok (lat, lon).
Proof.
  intros G Hnan. unfold update_position_at.
  destruct (fle (distance_km_at dt speed) (Finite 0)); [reflexivity|].
  rewrite G.
  replace (math_isnan new_lat || math_isnan new_lon) with true; [reflexivity|].
  symmetry. apply orb_true_iff. exact Hnan.
Qed.

(** A NaN wind bearing makes both computed coordinates NaN. *)
Lemma update_position_nan_guard_witness :
  geodesic_at UPDATE_INTERVAL (Finite 0) (Finite 0) NaN (Finite 1)
  = Ok (NaN, NaN)
  /\ update_position (Finite 0) (Finite 0) NaN (Finite 1)
     = Ok (Finite 0, Finite 0).
Proof.
  assert (G : geodesic_at UPDATE_INTERVAL (Finite 0) (Finite 0) NaN (Finite 1)
              = Ok (NaN, NaN)) by reflexivity.
  split; [exact G|].
  apply (update_position_nan_guard UPDATE_INTERVAL _ _ _ _ NaN NaN G).
  left. reflexivity.
Defined.





(* ------------------------------------------------------------------ *)
(** ** Text of the sentences *)

Local Open Scope string_scope.

Lemma append_assoc' (a b c : string) : (a ++ b) ++ c = a ++ (b ++ c).
Proof. induction a as [|x a IH]; simpl; [reflexivity|]. rewrite IH. reflexivity. Qed.

Lemma free_of_append (x : ascii) (a b : string) :
  free_of x (a ++ b) = free_of x a && free_of x b.
Proof.
  induction a as [|c a IH]; simpl; [reflexivity|].
  rewrite IH. apply andb_assoc.
Qed.

Lemma clean_field_append (a b : string) :
  clean_field a = true -> clean_field b = true -> clean_field (a ++ b) = true.
Proof.
  unfold clean_field. rewrite !free_of_append, !andb_true_iff. tauto.
Qed.

Lemma clean_dec_uint (d : Decimal.uint) :
  clean_field (DecimalString.NilEmpty.string_of_uint d) = true.
Proof.
  induction d; simpl; try reflexivity;
    unfold clean_field in *; simpl; exact IHd.
Qed.

Lemma clean_dec_string (n : N) : clean_field (dec_string n) = true.
Proof. apply clean_dec_uint. Qed.

Lemma clean_zeros (n : nat) : clean_field (zeros n) = true.
Proof.
  induction n as [|n IH]; simpl; [reflexivity|].
  unfold clean_field in *. simpl. exact IH.
Qed.

Lemma clean_zfill (w : nat) (s : string) :
  clean_field s = true -> clean_field (zfill w s) = true.
Proof. intros H. apply clean_field_append; [apply clean_zeros|exact H]. Qed.

Lemma clean_fmt_d (w : nat) (z : Z) : clean_field (fmt_d w z) = true.
Proof.
  unfold fmt_d. destruct (z <? 0)%Z.
  - apply (clean_field_append "-"); [reflexivity|].
    apply clean_zfill, clean_dec_string.
  - apply clean_zfill, clean_dec_string.
Qed.

Lemma clean_fmt_f (prec : nat) (x : pyfloat) : clean_field (fmt_f prec x) = true.
Proof.
  destruct x as [a| | |]; try reflexivity.
  unfold fmt_f.
  apply clean_field_append; [destruct (Rltb a 0); reflexivity|].
  apply clean_field_append; [apply clean_dec_string|].
  apply (clean_field_append "."); [reflexivity|].
  apply clean_zfill, clean_dec_string.
Qed.

Lemma clean_time_strftime (now : struct_time) :
  clean_field (time_strftime now) = true.
Proof.
  unfold time_strftime.
  repeat (apply clean_field_append; [apply clean_fmt_d|]). reflexivity.
Qed.

(** Taking a sentence apart. *)
Lemma split_at_star_append (body tail : string) :
  free_of "*" body = true ->
  split_at_star (body ++ String "*" tail) = Some (body, tail).
Proof.
  induction body as [|c body IH]; simpl; intros H; [reflexivity|].
  apply andb_true_iff in H. destruct H as [Hc Hb].
  apply negb_true_iff in Hc. rewrite Hc, (IH Hb). reflexivity.
Qed.

Lemma sentence_parts_wrap (body tail : string) :
  free_of "*" body = true ->
  sentence_parts ("$" ++ body ++ "*" ++ tail) = Some (body, tail).
Proof. intros H. simpl. apply split_at_star_append, H. Qed.

Lemma split_commas_field (f rest : string) :
  free_of "," f = true ->
  split_commas (f ++ String "," rest) = f :: split_commas rest.
Proof.
  induction f as [|c f IH]; simpl; intros H; [reflexivity|].
  apply andb_true_iff in H. destruct H as [Hc Hf].
  apply negb_true_iff in Hc. rewrite Hc, (IH Hf). reflexivity.
Qed.

Lemma split_commas_single (f : string) :
  free_of "," f = true -> split_commas f = [f].
Proof.
  induction f as [|c f IH]; simpl; intros H; [reflexivity|].
  apply andb_true_iff in H. destruct H as [Hc Hf].
  apply negb_true_iff in Hc. rewrite Hc, (IH Hf). reflexivity.
Qed.

Lemma split_commas_concat (fields : list string) :
  fields <> nil ->
  Forall (fun f => clean_field f = true) fields ->
  split_commas (concat "," fields) = fields.
Proof.
  induction fields as [|f fields IH]; intros Hne Hall; [congruence|].
  inversion Hall as [|? ? Hf Hrest]; subst.
  unfold clean_field in Hf. apply andb_true_iff in Hf. destruct Hf as [Hf _].
  destruct fields as [|g fields].
  - simpl. apply split_commas_single, Hf.
  - change (concat "," (f :: g :: fields))
      with (f ++ String "," (concat "," (g :: fields))).
    rewrite split_commas_field by exact Hf.
    rewrite IH; [reflexivity|discriminate|exact Hrest].
Qed.

Lemma free_of_star_concat (fields : list string) :
  Forall (fun f => clean_field f = true) fields ->
  free_of "*" (concat "," fields) = true.
Proof.
  induction 1 as [|f fields Hf Hrest IH]; [reflexivity|].
  unfold clean_field in Hf. apply andb_true_iff in Hf. destruct Hf as [_ Hf].
  destruct fields as [|g fields]; [exact Hf|].
  change (concat "," (f :: g :: fields))
    with (f ++ String "," (concat "," (g :: fields))).
  rewrite free_of_append, Hf. simpl. exact IH.
Qed.

(** The loop of [calculate_checksum] computes the XOR of the codes. *)
Lemma checksum_loop_xor (s : string) (acc : N) :
  checksum_loop s acc = N.lxor acc (xor_codes s).
Proof.
  revert acc. induction s as [|c s IH]; intros acc; simpl.
  - symmetry. apply N.lxor_0_r.
  - rewrite IH. apply N.lxor_assoc.
Qed.

Lemma lxor_byte (a b : N) : (a < 256 -> b < 256 -> N.lxor a b < 256)%N.
Proof.
  intros Ha Hb.
  assert (Hlog : forall x : N, (x < 256 -> N.log2 x < 8)%N).
  { intros x Hx. destruct (N.eq_dec x 0) as [->|Hne]; [reflexivity|].
    apply N.log2_lt_pow2; [lia|exact Hx]. }
  destruct (N.eq_dec (N.lxor a b) 0) as [E|Hne]; [rewrite E; reflexivity|].
  change 256%N with (2 ^ 8)%N. apply N.log2_lt_pow2; [lia|].
  pose proof (N.log2_lxor a b). pose proof (Hlog a Ha). pose proof (Hlog b Hb).
  lia.
Qed.

Lemma xor_codes_byte (s : string) : (xor_codes s < 256)%N.
Proof.
  induction s as [|c s IH]; simpl; [reflexivity|].
  apply lxor_byte; [apply N_ascii_bounded|exact IH].
Qed.

(** On a byte, the format [02X] gives the two hexadecimal digits. *)
Lemma fmt_02X_byte (n : N) : (n < 256)%N -> fmt_02X n = two_hex n.
Proof.
  intros Hn.
  assert (Hall : forallb (fun k => String.eqb (fmt_02X (N.of_nat k))
                                              (two_hex (N.of_nat k)))
                         (seq 0 256) = true) by (vm_compute; reflexivity).
  rewrite forallb_forall in Hall.
  specialize (Hall (N.to_nat n)). rewrite N2Nat.id in Hall.
  apply String.eqb_eq, Hall, in_seq. lia.
Qed.

Lemma calculate_checksum_two_hex (body : string) :
  calculate_checksum body = two_hex (xor_codes body).
Proof.
  unfold calculate_checksum.
  rewrite checksum_loop_xor, N.lxor_0_l. apply fmt_02X_byte, xor_codes_byte.
Qed.

(** A sentence wrapped by the emitter passes the test of the receiver. *)
Lemma checksum_valid_wrap (body : string) :
  free_of "*" body = true ->
  checksum_valid ("$" ++ body ++ "*" ++ calculate_checksum body) = true.
Proof.
  intros H. unfold checksum_valid. rewrite sentence_parts_wrap by exact H.
  rewrite calculate_checksum_two_hex. apply String.eqb_refl.
Qed.

Lemma nmea_fields_wrap (fields : list string) :
  fields <> nil ->
  Forall (fun f => clean_field f = true) fields ->
  nmea_fields ("$" ++ concat "," fields ++ "*"
               ++ calculate_checksum (concat "," fields)) = fields.
Proof.
  intros Hne Hall. unfold nmea_fields.
  rewrite sentence_parts_wrap by (apply free_of_star_concat, Hall).
  apply split_commas_concat; assumption.
Qed.

Lemma rmc_body_concat (t d1 f1 h1 d2 f2 h2 sp : string) :
  "GNRMC," ++ t ++ ",A," ++ d1 ++ f1 ++ "," ++ h1 ++ ","
  ++ d2 ++ f2 ++ "," ++ h2 ++ "," ++ sp ++ ",,,002.7,E,N"
  = concat "," (rmc_fields t (d1 ++ f1) h1 (d2 ++ f2) h2 sp).
Proof. simpl. rewrite !append_assoc'. reflexivity. Qed.

Lemma gga_body_concat (t d1 f1 h1 d2 f2 h2 al : string) :
  "GNGGA," ++ t ++ "," ++ d1 ++ f1 ++ "," ++ h1 ++ ","
  ++ d2 ++ f2 ++ "," ++ h2 ++ ",1,08,0.9," ++ al ++ ",M,0.0,M,,"
  = concat "," (gga_fields t (d1 ++ f1) h1 (d2 ++ f2) h2 al).
Proof. simpl. rewrite !append_assoc'. reflexivity. Qed.

Lemma vtg_body_concat (sp : string) :
  "GNVTG,,T,,M," ++ sp ++ ",N,,K,N" = concat "," (vtg_fields sp).
Proof. reflexivity. Qed.

(** What [create_nmea_sentences] returns when it returns: three wrapped
    bodies, each a comma-joined list of clean fields. *)
Lemma create_nmea_sentences_ok
      (lat lon alt speed : pyfloat) (now : struct_time) (ss : list string) :
  create_nmea_sentences lat lon alt speed now = Ok ss ->
  exists t la lah lo loh : string,
    let sp := fmt_f 2 speed in
    let al := fmt_f 1 (fdiv_const alt 3.28084) in
    let rmc := rmc_fields t la lah lo loh sp in
    let gga := gga_fields t la lah lo loh al in
    let vtg := vtg_fields sp in
    ss = ["$" ++ concat "," rmc ++ "*" ++ calculate_checksum (concat "," rmc);
          "$" ++ concat "," gga ++ "*" ++ calculate_checksum (concat "," gga);
          "$" ++ concat "," vtg ++ "*" ++ calculate_checksum (concat "," vtg)]
    /\ Forall (fun f => clean_field f = true) rmc
    /\ Forall (fun f => clean_field f = true) gga
    /\ Forall (fun f => clean_field f = true) vtg.
Proof.
  unfold create_nmea_sentences.
  destruct (py_int (fabs lat)) as [lat_deg|e]; [|discriminate].
  destruct (py_int (fabs lon)) as [lon_deg|e]; [|discriminate].
  cbn [bind]. rewrite rmc_body_concat, gga_body_concat, vtg_body_concat.
  intros H. injection H as <-.
  do 5 eexists. cbv zeta. split; [reflexivity|].
  assert (Hlat : forall z x, clean_field (fmt_d 2 z ++ fmt_f 6 x) = true)
    by (intros; apply clean_field_append; [apply clean_fmt_d|apply clean_fmt_f]).
  assert (Hlon : forall z x, clean_field (fmt_d 3 z ++ fmt_f 6 x) = true)
    by (intros; apply clean_field_append; [apply clean_fmt_d|apply clean_fmt_f]).
  unfold rmc_fields, gga_fields, vtg_fields.
  repeat split;
    repeat (constructor;
            try first [ apply clean_time_strftime | apply clean_fmt_f
                      | apply Hlat | apply Hlon
                      | reflexivity
                      | match goal with
                        | |- clean_field (if ?b then _ else _) = true =>
                            destruct b; reflexivity
                        end ]).
Qed.

(** With a finite latitude and longitude nothing is raised. *)
Lemma create_nmea_sentences_returns
      (lat lon : R) (alt speed : pyfloat) (now : struct_time) :
  exists ss, create_nmea_sentences (Finite lat) (Finite lon) alt speed now = Ok ss.
Proof. unfold create_nmea_sentences. cbn [fabs py_int bind]. eexists. reflexivity. Qed.

(** C3: every sentence that [create_nmea_sentences] produces passes the
    checksum test of a receiver: the XOR of the character codes strictly
    between the leading ['$'] and the ['*'], written as two uppercase
    hexadecimal digits, is the text that follows the ['*']. *)
Theorem checksum_roundtrip
        (lat lon alt speed : pyfloat) (now : struct_time) (ss : list string) :
  create_nmea_sentences lat lon alt speed now = Ok ss ->
  forall s, In s ss -> checksum_valid s = true.
Proof.
  intros H s Hs.
  destruct (create_nmea_sentences_ok _ _ _ _ _ _ H)
    as (t & la & lah & lo & loh & E & H1 & H2 & H3).
  cbv zeta in E, H1, H2, H3. rewrite E in Hs.
  destruct Hs as [<-|[<-|[<-|[]]]];
    apply checksum_valid_wrap, free_of_star_concat; assumption.
Qed.

Lemma checksum_roundtrip_witness :
  exists s1 s2 s3,
    create_nmea_sentences (Finite 57.5) (Finite (-11.25)) (Finite 106)
                          (Finite 12) (mkTime 12 34 56)
    = Ok [s1; s2; s3]
    /\ checksum_valid s1 = true
    /\ checksum_valid s2 = true
    /\ checksum_valid s3 = true.
Proof.
  pose proof (checksum_roundtrip (Finite 57.5) (Finite (-11.25)) (Finite 106)
                                 (Finite 12) (mkTime 12 34 56)) as H.
  unfold create_nmea_sentences in H |- *. cbn [fabs py_int bind] in H |- *.
  do 3 eexists. split; [reflexivity|].
  repeat split; eapply H; try reflexivity; simpl; auto.
Defined.

(** C6 (claim as stated fails): not every call returns.  A NaN latitude
    makes [int(abs(lat))] raise [ValueError], an infinite one
    [OverflowError]; nothing is returned then. *)
Lemma create_nmea_sentences_nan_latitude_raises :
  create_nmea_sentences NaN (Finite 0) (Finite 0) (Finite 0) (mkTime 0 0 0)
  = Raise ValueError
  /\ create_nmea_sentences PInf (Finite 0) (Finite 0) (Finite 0) (mkTime 0 0 0)
     = Raise OverflowError.
Proof. split; reflexivity. Qed.

(** C6 (amended): every call with a finite latitude and a finite longitude
    returns exactly three sentences, the RMC, the GGA and the VTG sentence in
    this order, and the altitude field of the GGA sentence is the input
    altitude in feet divided by 3.28084, printed with one decimal; this holds
    for every altitude and every speed, NaN and the infinities included. *)
Theorem create_nmea_sentences_three
        (lat lon : R) (alt speed : pyfloat) (now : struct_time) :
  exists rmc gga vtg,
    create_nmea_sentences (Finite lat) (Finite lon) alt speed now
    = Ok [rmc; gga; vtg]
    /\ nth 0 (nmea_fields rmc) "" = "GNRMC"
    /\ nth 0 (nmea_fields gga) "" = "GNGGA"
    /\ nth 0 (nmea_fields vtg) "" = "GNVTG"
    /\ nth 9 (nmea_fields gga) "" = fmt_f 1 (fdiv_const alt 3.28084)
    /\ (forall a, alt = Finite a ->
        nth 9 (nmea_fields gga) "" = fmt_f 1 (Finite (a / 3.28084))).
Proof.
  destruct (create_nmea_sentences_returns lat lon alt speed now)
    as [ss Hss].
  destruct (create_nmea_sentences_ok _ _ _ _ _ _ Hss)
    as (t & la & lah & lo & loh & E & H1 & H2 & H3).
  cbv zeta in E, H1, H2, H3. rewrite Hss, E.
  do 3 eexists. split; [reflexivity|].
  rewrite !nmea_fields_wrap by (assumption || discriminate).
  repeat split; try reflexivity.
  intros a ->. reflexivity.
Qed.

Lemma create_nmea_sentences_three_witness :
  exists rmc gga vtg,
    create_nmea_sentences (Finite 57.5) (Finite (-11.25)) (Finite 106)
                          (Finite 12) (mkTime 12 34 56)
    = Ok [rmc; gga; vtg]
    /\ nth 9 (nmea_fields gga) "" = fmt_f 1 (Finite (106 / 3.28084)).
Proof.
  destruct (create_nmea_sentences_three 57.5 (-11.25) (Finite 106) (Finite 12)
                                        (mkTime 12 34 56))
    as (rmc & gga & vtg & E & _ & _ & _ & _ & H).
  exists rmc, gga, vtg. split; [exact E|]. apply H. reflexivity.
Defined.

(* ------------------------------------------------------------------ *)
(** ** Start-up and the loop *)

Lemma interpolate_wind_empty (alt : R) :
  interpolate_wind [] alt = Raise IndexError.
Proof. reflexivity. Qed.

Lemma tick_empty (now : struct_time) (st : FlightState) :
  tick [] now st = Raise IndexError.
Proof. unfold tick. rewrite interpolate_wind_empty. reflexivity. Qed.

(** C2 (claim as stated fails): with an empty wind table and a serial port
    that opens, the program reaches the loop, and the wind query of the
    first tick raises. *)
Lemma empty_profile_reaches_loop :
  startup [] true = Running
  /\ tick [] (mkTime 0 0 0) initial_state = Raise IndexError.
Proof. split; [reflexivity|apply tick_empty]. Qed.

(** C2 (amended): start-up does not look at the wind table, it enters the
    loop exactly when the serial port opens; with an empty table every tick
    fails in its wind query with [IndexError]. *)
Theorem empty_profile_fails_per_tick
        (winds : list WindSample) (serial_opens : bool)
        (now : struct_time) (st : FlightState) :
  startup winds serial_opens = (if serial_opens then Running else Exited)
  /\ startup [] true = Running
  /\ tick [] now st = Raise IndexError.
Proof.
  split; [reflexivity|]. split; [reflexivity|].
  unfold tick. rewrite interpolate_wind_empty. reflexivity.
Qed.

(* ================================================================== *)
(** * Further properties of the wind query *)

Local Open Scope list_scope.

Lemma insert_by_height_perm (w : WindSample) (l : list WindSample) :
  Permutation (insert_by_height w l) (w :: l).
Proof.
  induction l as [|v l IH]; simpl; [reflexivity|].
  destruct (Rleb (height_ft w) (height_ft v)); [reflexivity|].
  rewrite IH. apply perm_swap.
Qed.

Lemma sort_values_perm (l : list WindSample) : Permutation (sort_values l) l.
Proof.
  induction l as [|w l IH]; simpl; [reflexivity|].
  rewrite insert_by_height_perm, IH. reflexivity.
Qed.

Lemma same_height_same_row (l : list WindSample) (v w : WindSample) :
  NoDup (map height_ft l) -> In v l -> In w l ->
  height_ft v = height_ft w -> v = w.
Proof.
  induction l as [|a l IH]; simpl; intros Hnd Hv Hw E; [contradiction|].
  inversion Hnd as [|? ? Hnotin Hnd']; subst.
  destruct Hv as [->|Hv], Hw as [->|Hw]; auto.
  - exfalso. apply Hnotin. rewrite E. apply in_map, Hw.
  - exfalso. apply Hnotin. rewrite <- E. apply in_map, Hv.
Qed.

Lemma sorted_perm_unique (l1 l2 : list WindSample) :
  StronglySorted height_le l1 -> StronglySorted height_le l2 ->
  Permutation l1 l2 -> NoDup (map height_ft l1) -> l1 = l2.
Proof.
  revert l2. induction l1 as [|a l1 IH]; intros l2 Hs1 Hs2 Hp Hnd.
  - apply Permutation_nil in Hp. congruence.
  - destruct l2 as [|b l2].
    { apply Permutation_sym, Permutation_nil in Hp. discriminate. }
    inversion Hs1 as [|? ? Hs1' Hall1]; subst.
    inversion Hs2 as [|? ? Hs2' Hall2]; subst.
    rewrite Forall_forall in Hall1, Hall2. unfold height_le in Hall1, Hall2.
    assert (Hb : In b (a :: l1))
      by (apply (Permutation_in _ (Permutation_sym Hp)); left; reflexivity).
    assert (Ha : In a (b :: l2))
      by (apply (Permutation_in _ Hp); left; reflexivity).
    assert (Hab : height_ft a <= height_ft b).
    { destruct Hb as [<-|Hb]; [lra|auto]. }
    assert (Hba : height_ft b <= height_ft a).
    { destruct Ha as [<-|Ha]; [lra|auto]. }
    assert (E : a = b).
    { apply (same_height_same_row (a :: l1)); auto; [left; reflexivity|lra]. }
    subst b. f_equal.
    apply IH; auto.
    + apply Permutation_cons_inv in Hp. exact Hp.
    + simpl in Hnd. inversion Hnd. assumption.
Qed.

Lemma sort_values_NoDup (l : list WindSample) :
  NoDup (map height_ft l) -> NoDup (map height_ft (sort_values l)).
Proof.
  apply Permutation_NoDup, Permutation_map, Permutation_sym, sort_values_perm.
Qed.

Lemma filter_cases {A : Type} (p : A -> bool) (l : list A) :
  (filter p l = [] /\ forall x, In x l -> p x = false)
  \/ exists x rest, filter p l = x :: rest /\ In x l /\ p x = true.
Proof.
  destruct (filter p l) as [|x rest] eqn:E.
  - left. split; [reflexivity|]. intros x Hx.
    destruct (p x) eqn:Ep; [|reflexivity].
    assert (Hin : In x (filter p l)) by (apply filter_In; auto).
    rewrite E in Hin. destruct Hin.
  - right. exists x, rest. split; [reflexivity|].
    assert (Hin : In x (filter p l)) by (rewrite E; left; reflexivity).
    apply filter_In in Hin. exact Hin.
Qed.

Lemma iloc_last_cons (x : WindSample) (l : list WindSample) :
  exists w, iloc_last (x :: l) = Ok w /\ In w (x :: l).
Proof.
  destruct (@exists_last _ (x :: l)) as (l' & w & E); [discriminate|].
  exists w. rewrite E, iloc_last_snoc. split; [reflexivity|].
  apply in_or_app. right. left. reflexivity.
Qed.

(** X1: with one row per height, a query at a sampled height returns that
    row's bearing and speed, also at the lowest and the highest sample. *)
Theorem interpolate_wind_exact (winds : list WindSample) (w : WindSample) :
  NoDup (map height_ft winds) -> In w winds ->
  interpolate_wind winds (height_ft w) = Ok (bearing_deg w, speed_knots w).
Proof.
  intros Hnd Hw. unfold interpolate_wind.
  destruct (filter_cases (fun v => Reqb (height_ft v) (height_ft w))
                         (sort_values winds))
    as [[_ Hnone]|(v & rest & E & Hv & Hpv)].
  - specialize (Hnone w (proj2 (sort_values_In _ _) Hw)).
    apply Reqb_false in Hnone. congruence.
  - rewrite E. apply Reqb_true in Hpv. rewrite sort_values_In in Hv.
    rewrite (same_height_same_row winds v w Hnd Hv Hw Hpv). reflexivity.
Qed.

Lemma interpolate_wind_exact_witness :
  interpolate_wind [mkWind 1000 180 10; mkWind 0 90 5] 0 = Ok (90, 5)
  /\ interpolate_wind [mkWind 1000 180 10; mkWind 0 90 5] 1000 = Ok (180, 10).
Proof.
  assert (Hnd : NoDup (map height_ft [mkWind 1000 180 10; mkWind 0 90 5])).
  { simpl. constructor; [intros [H|[]]; lra|].
    constructor; [intros []|constructor]. }
  split.
  - apply (interpolate_wind_exact _ (mkWind 0 90 5) Hnd).
    right. left. reflexivity.
  - apply (interpolate_wind_exact _ (mkWind 1000 180 10) Hnd).
    left. reflexivity.
Defined.

(** When the query returns and when it raises. *)
Lemma interpolate_wind_covered (winds : list WindSample) (alt : R) :
  (covered winds alt -> exists r, interpolate_wind winds alt = Ok r)
  /\ (~ covered winds alt -> interpolate_wind winds alt = Raise IndexError).
Proof.
  unfold covered, interpolate_wind.
  destruct (filter_cases (fun v => Reqb (height_ft v) alt) (sort_values winds))
    as [[E Hne]|(v & rest & E & Hv & Hpv)]; rewrite E.
  2:{ split; [intros _; eexists; reflexivity|].
      intros Hn. exfalso. apply Hn. left. exists v.
      rewrite sort_values_In in Hv. apply Reqb_true in Hpv. auto. }
  destruct (filter_cases (fun v => Rltb (height_ft v) alt) (sort_values winds))
    as [[El Hnl]|(lo & restl & El & Hlo & Hplo)]; rewrite El.
  { split; [|reflexivity].
    intros [(w & Hw & Ew)|[(w & Hw & Ew) _]]; exfalso;
      rewrite <- sort_values_In in Hw.
    - specialize (Hne w Hw). apply Reqb_false in Hne. congruence.
    - specialize (Hnl w Hw). apply Rltb_false in Hnl. lra. }
  destruct (iloc_last_cons lo restl) as (lw & Elw & _). rewrite Elw. cbn [bind].
  destruct (filter_cases (fun v => Rltb alt (height_ft v)) (sort_values winds))
    as [[Eu Hnu]|(hi & restu & Eu & Hhi & Hphi)]; rewrite Eu.
  { split; [|reflexivity].
    intros [(w & Hw & Ew)|[_ (w & Hw & Ew)]]; exfalso;
      rewrite <- sort_values_In in Hw.
    - specialize (Hne w Hw). apply Reqb_false in Hne. congruence.
    - specialize (Hnu w Hw). apply Rltb_false in Hnu. lra. }
  cbn [iloc_first bind row_empty].
  split; [intros _; eexists; reflexivity|].
  intros Hn. exfalso. apply Hn. right.
  rewrite sort_values_In in Hlo, Hhi.
  apply Rltb_true in Hplo, Hphi. split; eauto.
Qed.

(** X2: the query returns a pair exactly when the altitude is a sampled one
    or lies strictly between two sampled ones; in every other case, the
    empty table included, it raises [IndexError]. *)
Theorem interpolate_wind_ok_iff (winds : list WindSample) (alt : R) :
  (covered winds alt -> exists r, interpolate_wind winds alt = Ok r)
  /\ (~ covered winds alt -> interpolate_wind winds alt = Raise IndexError).
Proof.
  split; intros H; apply (interpolate_wind_covered winds alt); exact H.
Qed.

Lemma interpolate_wind_ok_iff_witness :
  (exists r, interpolate_wind [mkWind 0 90 5; mkWind 1000 180 10] 500 = Ok r)
  /\ interpolate_wind [mkWind 0 90 5; mkWind 1000 180 10] 1500
     = Raise IndexError.
Proof.
  split.
  - apply (interpolate_wind_ok_iff [mkWind 0 90 5; mkWind 1000 180 10] 500).
    right. split.
    + exists (mkWind 0 90 5). split; [left; reflexivity|]. cbn. lra.
    + exists (mkWind 1000 180 10). split; [right; left; reflexivity|]. cbn. lra.
  - apply (interpolate_wind_ok_iff [mkWind 0 90 5; mkWind 1000 180 10] 1500).
    intros [(w & [<-|[<-|[]]] & Hw)|[_ (w & [<-|[<-|[]]] & Hw)]];
      cbn in Hw; lra.
Defined.

(** X3: the answer does not depend on the order of the rows of the table,
    as long as no height occurs twice. *)
Theorem interpolate_wind_order_independent
        (winds winds' : list WindSample) (alt : R) :
  NoDup (map height_ft winds) -> Permutation winds winds' ->
  interpolate_wind winds alt = interpolate_wind winds' alt.
Proof.
  intros Hnd Hp.
  assert (E : sort_values winds = sort_values winds').
  { apply sorted_perm_unique; try apply sort_values_sorted.
    - rewrite sort_values_perm, Hp. symmetry. apply sort_values_perm.
    - apply sort_values_NoDup, Hnd. }
  unfold interpolate_wind. rewrite E. reflexivity.
Qed.

Lemma interpolate_wind_order_independent_witness :
  interpolate_wind [mkWind 0 90 5; mkWind 1000 180 10] 500
  = interpolate_wind [mkWind 1000 180 10; mkWind 0 90 5] 500.
Proof.
  apply interpolate_wind_order_independent.
  - simpl. constructor; [intros [H|[]]; lra|].
    constructor; [intros []|constructor].
  - apply perm_swap.
Defined.

(** The value of the query strictly between two neighbours. *)
Lemma interpolate_wind_between_eq
      (winds before after : list WindSample) (lower upper : WindSample)
      (alt : R) :
  sort_values winds = before ++ lower :: upper :: after ->
  height_ft lower < alt < height_ft upper ->
  let d := pymod (bearing_deg upper - bearing_deg lower) 360 in
  let delta := if Rltb 180 d then d - 360 else d in
  let fraction :=
    (alt - height_ft lower) / (height_ft upper - height_ft lower) in
  interpolate_wind winds alt
  = Ok (pymod (bearing_deg lower + fraction * delta) 360,
        speed_knots lower
        + fraction * (speed_knots upper - speed_knots lower)).
Proof.
  intros Hsort Halt.
  pose proof (sort_values_sorted winds) as Hs. rewrite Hsort in Hs.
  destruct (selections_between _ _ _ _ _ Hs Halt) as (E1 & E2 & E3).
  unfold interpolate_wind. rewrite Hsort, E1, E2, E3, iloc_last_snoc.
  reflexivity.
Qed.




(** X5: strictly between two neighbouring samples the bearing is the lower
    bearing turned by a fraction of a signed angle [delta], reduced by a
    multiple of 360 into [0, 360]; [delta] differs from [upper - lower] by a
    multiple of 360 and satisfies [-180 < delta <= 180], so the turn takes
    the shorter way round. *)
Theorem interpolate_wind_shorter_path
        (winds before after : list WindSample) (lower upper : WindSample)
        (alt : R) :
  sort_values winds = before ++ lower :: upper :: after ->
  height_ft lower < alt < height_ft upper ->
  exists (delta : R) (j k : Z) (bearing speed : R),
    interpolate_wind winds alt = Ok (bearing, speed)
    /\ delta = bearing_deg upper - bearing_deg lower - 360 * IZR j
    /\ -180 < delta <= 180
    /\ bearing
       = bearing_deg lower
         + (alt - height_ft lower) / (height_ft upper - height_ft lower) * delta
         - 360 * IZR k
    /\ 0 <= bearing <= 360.
Proof.
  intros Hsort Halt.
  pose proof (interpolate_wind_between_eq _ _ _ _ _ _ Hsort Halt) as E.
  cbv zeta in E. rewrite E. clear E.
  set (x := bearing_deg upper - bearing_deg lower).
  pose proof (pymod_range x 360 ltac:(lra)) as Hd.
  assert (Ed : pymod x 360 = x - 360 * IZR (Rfloor (x / 360))) by reflexivity.
  destruct (Rltb 180 (pymod x 360)) eqn:Hc.
  - apply Rltb_true in Hc.
    exists (pymod x 360 - 360), (Rfloor (x / 360) + 1)%Z.
    eexists. do 2 eexists. split; [reflexivity|].
    split; [rewrite plus_IZR; lra|]. split; [lra|].
    split; [reflexivity|].
    match goal with
    | |- 0 <= pymod ?y ?m <= _ => pose proof (pymod_range y m ltac:(lra)); lra
    end.
  - apply Rltb_false in Hc.
    exists (pymod x 360), (Rfloor (x / 360)).
    eexists. do 2 eexists. split; [reflexivity|].
    split; [lra|]. split; [lra|].
    split; [reflexivity|].
    match goal with
    | |- 0 <= pymod ?y ?m <= _ => pose proof (pymod_range y m ltac:(lra)); lra
    end.
Qed.

Lemma interpolate_wind_shorter_path_witness :
  exists (delta : R) (j k : Z) (bearing speed : R),
    interpolate_wind [mkWind 10000 350 20; mkWind 11000 10 30] 10500
    = Ok (bearing, speed)
    /\ delta = 10 - 350 - 360 * IZR j
    /\ -180 < delta <= 180
    /\ bearing
       = 350 + (10500 - 10000) / (11000 - 10000) * delta - 360 * IZR k
    /\ 0 <= bearing <= 360.
Proof.
  apply (interpolate_wind_shorter_path
           [mkWind 10000 350 20; mkWind 11000 10 30] [] []
           (mkWind 10000 350 20) (mkWind 11000 10 30) 10500).
  - simpl. rcmp. reflexivity.
  - simpl. lra.
Defined.

(* ================================================================== *)
(** * Further properties of the checksum *)

Local Open Scope string_scope.

Lemma xor_codes_append (a b : string) :
  xor_codes (a ++ b) = N.lxor (xor_codes a) (xor_codes b).
Proof.
  induction a as [|c a IH]; simpl.
  - symmetry. apply N.lxor_0_l.
  - rewrite IH. symmetry. apply N.lxor_assoc.
Qed.

Lemma lxor_cancel_l (x y z : N) : N.lxor x y = N.lxor x z -> y = z.
Proof.
  intros H. apply (f_equal (N.lxor x)) in H.
  rewrite <- !N.lxor_assoc, N.lxor_nilpotent, !N.lxor_0_l in H. exact H.
Qed.

Lemma N_of_ascii_inj (c c' : ascii) : N_of_ascii c = N_of_ascii c' -> c = c'.
Proof.
  intros H. rewrite <- (ascii_N_embedding c), <- (ascii_N_embedding c'), H.
  reflexivity.
Qed.

(** Reading back the two digits of a byte. *)
Lemma parse_two_hex_two_hex (n : N) :
  (n < 256)%N -> parse_two_hex (two_hex n) = Some n.
Proof.
  intros Hn.
  assert (Hall : forallb (fun k => match parse_two_hex (two_hex (N.of_nat k)) with
                                   | Some m => N.eqb m (N.of_nat k)
                                   | None => false
                                   end) (seq 0 256) = true)
    by (vm_compute; reflexivity).
  rewrite forallb_forall in Hall.
  specialize (Hall (N.to_nat n)). rewrite N2Nat.id in Hall.
  destruct (parse_two_hex (two_hex n)) as [m|].
  - f_equal. apply N.eqb_eq, Hall, in_seq. lia.
  - discriminate Hall. apply in_seq. lia.
Qed.

Lemma calculate_checksum_inj (s s' : string) :
  calculate_checksum s = calculate_checksum s' -> xor_codes s = xor_codes s'.
Proof.
  rewrite !calculate_checksum_two_hex. intros H.
  apply (f_equal parse_two_hex) in H.
  rewrite !parse_two_hex_two_hex in H by apply xor_codes_byte.
  congruence.
Qed.

(** X6: the checksum of any text is a string of exactly two uppercase
    hexadecimal digits, and read back as a number it is the XOR of the
    character codes of the text. *)
Theorem calculate_checksum_decodes (s : string) :
  String.length (calculate_checksum s) = 2%nat
  /\ parse_two_hex (calculate_checksum s) = Some (xor_codes s)
  /\ parse_two_hex (calculate_checksum s) = Some (checksum_loop s 0%N).
Proof.
  rewrite checksum_loop_xor, N.lxor_0_l, calculate_checksum_two_hex.
  split; [reflexivity|].
  split; apply parse_two_hex_two_hex, xor_codes_byte.
Qed.

(** X7: the checksum does not see the order of the characters: swapping two
    parts of a text leaves it unchanged. *)
Theorem calculate_checksum_order_blind (a b : string) :
  calculate_checksum (a ++ b) = calculate_checksum (b ++ a).
Proof.
  rewrite !calculate_checksum_two_hex, !xor_codes_append.
  f_equal. apply N.lxor_comm.
Qed.

Lemma calculate_checksum_one_char (a b : string) (c c' : ascii) :
  c <> c' ->
  calculate_checksum (a ++ String c b) <> calculate_checksum (a ++ String c' b).
Proof.
  intros Hc H. apply calculate_checksum_inj in H.
  rewrite !xor_codes_append in H. simpl in H.
  apply lxor_cancel_l in H.
  rewrite (N.lxor_comm (N_of_ascii c)), (N.lxor_comm (N_of_ascii c')) in H.
  apply lxor_cancel_l, N_of_ascii_inj in H. contradiction.
Qed.

(** X8: a sentence in which one character of the body has been replaced by
    a different one (not a star) fails the checksum test of the receiver. *)
Theorem checksum_detects_one_char (a b : string) (c c' : ascii) :
  c <> c' ->
  free_of "*" (a ++ String c' b) = true ->
  checksum_valid ("$" ++ (a ++ String c' b) ++ "*"
                  ++ calculate_checksum (a ++ String c b)) = false.
Proof.
  intros Hc Hfree. unfold checksum_valid.
  rewrite sentence_parts_wrap by exact Hfree.
  apply String.eqb_neq. rewrite <- calculate_checksum_two_hex.
  apply calculate_checksum_one_char. congruence.
Qed.

Lemma checksum_detects_one_char_witness :
  checksum_valid ("$" ++ ("GNVTG,,T,,M," ++ String "7" ".00,N,,K,N") ++ "*"
                  ++ calculate_checksum
                       ("GNVTG,,T,,M," ++ String "1" ".00,N,,K,N")) = false.
Proof.
  apply checksum_detects_one_char.
  - discriminate.
  - reflexivity.
Defined.

(* ================================================================== *)
(** * Further properties of the sentences *)

(** The degrees-and-minutes text of a coordinate, as the format strings
    build it from [int(abs(x))] and the remaining minutes. *)
Lemma create_nmea_sentences_finite
      (lat lon : R) (alt speed : pyfloat) (now : struct_time) :
  let t := time_strftime now in
  let la := fmt_d 2 (Rfloor (Rabs lat))
            ++ fmt_f 6 (Finite ((Rabs lat - IZR (Rfloor (Rabs lat))) * 60)) in
  let lo := fmt_d 3 (Rfloor (Rabs lon))
            ++ fmt_f 6 (Finite ((Rabs lon - IZR (Rfloor (Rabs lon))) * 60)) in
  let lah := if Rleb 0 lat then "N" else "S" in
  let loh := if Rleb 0 lon then "E" else "W" in
  let sp := fmt_f 2 speed in
  let al := fmt_f 1 (fdiv_const alt 3.28084) in
  let rmc := rmc_fields t la lah lo loh sp in
  let gga := gga_fields t la lah lo loh al in
  let vtg := vtg_fields sp in
  create_nmea_sentences (Finite lat) (Finite lon) alt speed now
  = Ok ["$" ++ concat "," rmc ++ "*" ++ calculate_checksum (concat "," rmc);
        "$" ++ concat "," gga ++ "*" ++ calculate_checksum (concat "," gga);
        "$" ++ concat "," vtg ++ "*" ++ calculate_checksum (concat "," vtg)]
  /\ Forall (fun f => clean_field f = true) rmc
  /\ Forall (fun f => clean_field f = true) gga
  /\ Forall (fun f => clean_field f = true) vtg.
Proof.
  cbv zeta.
  assert (Hlat : forall w z x, clean_field (fmt_d w z ++ fmt_f 6 x) = true)
    by (intros; apply clean_field_append; [apply clean_fmt_d|apply clean_fmt_f]).
  split.
  - unfold create_nmea_sentences. cbn [fabs py_int bind].
    rewrite (proj2 (Rleb_true 0 (Rabs lat)) (Rabs_pos lat)).
    rewrite (proj2 (Rleb_true 0 (Rabs lon)) (Rabs_pos lon)).
    cbn [fsub fopp fadd fmul fge fle].
    rewrite rmc_body_concat, gga_body_concat, vtg_body_concat.
    reflexivity.
  - unfold rmc_fields, gga_fields, vtg_fields.
    repeat split;
      repeat (constructor;
              try first [ apply clean_time_strftime | apply clean_fmt_f
                        | apply Hlat | reflexivity
                        | match goal with
                          | |- clean_field (if ?b then _ else _) = true =>
                              destruct b; reflexivity
                          end ]).
Qed.

(** X9: taking the three sentences apart at the commas gives back the
    fields that were put in: 13 for RMC, 15 for GGA, 10 for VTG; RMC and GGA
    carry the same time, latitude, hemisphere and longitude texts, and RMC
    and VTG the same speed text. *)
Theorem create_nmea_sentences_fields
        (lat lon : R) (alt speed : pyfloat) (now : struct_time) :
  exists rmc gga vtg la lo,
    create_nmea_sentences (Finite lat) (Finite lon) alt speed now
    = Ok [rmc; gga; vtg]
    /\ nmea_fields rmc
       = rmc_fields (time_strftime now) la (if Rleb 0 lat then "N" else "S")
                    lo (if Rleb 0 lon then "E" else "W") (fmt_f 2 speed)
    /\ nmea_fields gga
       = gga_fields (time_strftime now) la (if Rleb 0 lat then "N" else "S")
                    lo (if Rleb 0 lon then "E" else "W")
                    (fmt_f 1 (fdiv_const alt 3.28084))
    /\ nmea_fields vtg = vtg_fields (fmt_f 2 speed)
    /\ List.length (nmea_fields rmc) = 13%nat
    /\ List.length (nmea_fields gga) = 15%nat
    /\ List.length (nmea_fields vtg) = 10%nat.
Proof.
  destruct (create_nmea_sentences_finite lat lon alt speed now)
    as (E & H1 & H2 & H3).
  cbv zeta in E, H1, H2, H3. rewrite E.
  do 5 eexists. split; [reflexivity|].
  rewrite !nmea_fields_wrap by (assumption || discriminate).
  repeat split; reflexivity.
Qed.

Lemma Rfloor_nonneg (x : R) : 0 <= x -> (0 <= Rfloor x)%Z.
Proof.
  intros Hx. pose proof (Rfloor_bounds x) as [_ H].
  apply Z.lt_succ_r. apply lt_IZR. rewrite succ_IZR. lra.
Qed.

Lemma minutes_range (x : R) :
  0 <= (Rabs x - IZR (Rfloor (Rabs x))) * 60 < 60.
Proof. pose proof (Rfloor_bounds (Rabs x)). lra. Qed.

(** X10: the latitude field is a whole number of degrees [d >= 0] printed
    on at least two digits followed by the minutes [m] with six decimals,
    where [0 <= m < 60] and [d + m / 60 = |lat|]; the next field is N for
    [lat >= 0] and S otherwise.  The same holds for the longitude with
    three digits and E or W. *)
Theorem create_nmea_sentences_degrees_minutes
        (lat lon : R) (alt speed : pyfloat) (now : struct_time) :
  exists rmc gga vtg (d e : Z) (m n : R),
    create_nmea_sentences (Finite lat) (Finite lon) alt speed now
    = Ok [rmc; gga; vtg]
    /\ (0 <= d)%Z /\ 0 <= m < 60 /\ IZR d + m / 60 = Rabs lat
    /\ (0 <= e)%Z /\ 0 <= n < 60 /\ IZR e + n / 60 = Rabs lon
    /\ nth 3 (nmea_fields rmc) "" = fmt_d 2 d ++ fmt_f 6 (Finite m)
    /\ nth 4 (nmea_fields rmc) "" = (if Rleb 0 lat then "N" else "S")
    /\ nth 5 (nmea_fields rmc) "" = fmt_d 3 e ++ fmt_f 6 (Finite n)
    /\ nth 6 (nmea_fields rmc) "" = (if Rleb 0 lon then "E" else "W")
    /\ nth 2 (nmea_fields gga) "" = nth 3 (nmea_fields rmc) ""
    /\ nth 4 (nmea_fields gga) "" = nth 5 (nmea_fields rmc) "".
Proof.
  destruct (create_nmea_sentences_finite lat lon alt speed now)
    as (E & H1 & H2 & H3).
  cbv zeta in E, H1, H2, H3. rewrite E.
  do 3 eexists.
  exists (Rfloor (Rabs lat)), (Rfloor (Rabs lon)).
  exists ((Rabs lat - IZR (Rfloor (Rabs lat))) * 60),
         ((Rabs lon - IZR (Rfloor (Rabs lon))) * 60).
  split; [reflexivity|].
  rewrite !nmea_fields_wrap by (assumption || discriminate).
  pose proof (minutes_range lat). pose proof (minutes_range lon).
  repeat split;
    try (apply Rfloor_nonneg, Rabs_pos); try reflexivity; lra.
Qed.

(** X11: which calls raise: a NaN latitude raises [ValueError] and an
    infinite one [OverflowError]; with a finite latitude the same holds for
    the longitude; with both finite the call returns, whatever the altitude
    and the speed are (NaN and the infinities included). *)
Theorem create_nmea_sentences_outcome
        (lat lon alt speed : pyfloat) (now : struct_time) :
  match lat, lon with
  | NaN, _ =>
      create_nmea_sentences lat lon alt speed now = Raise ValueError
  | (PInf | NInf), _ =>
      create_nmea_sentences lat lon alt speed now = Raise OverflowError
  | Finite _, NaN =>
      create_nmea_sentences lat lon alt speed now = Raise ValueError
  | Finite _, (PInf | NInf) =>
      create_nmea_sentences lat lon alt speed now = Raise OverflowError
  | Finite _, Finite _ =>
      exists s1 s2 s3,
        create_nmea_sentences lat lon alt speed now = Ok [s1; s2; s3]
  end.
Proof.
  destruct lat, lon; try reflexivity.
  unfold create_nmea_sentences. cbn [fabs py_int bind].
  do 3 eexists. reflexivity.
Qed.

Lemma fmt_d_2_length (n : N) :
  (n < 100)%N -> String.length (fmt_d 2 (Z.of_N n)) = 2%nat.
Proof.
  intros Hn.
  assert (Hall : forallb (fun k => Nat.eqb (String.length
                                              (fmt_d 2 (Z.of_N (N.of_nat k)))) 2)
                         (seq 0 100) = true) by (vm_compute; reflexivity).
  rewrite forallb_forall in Hall.
  specialize (Hall (N.to_nat n)). rewrite N2Nat.id in Hall.
  apply Nat.eqb_eq, Hall, in_seq. lia.
Qed.

Lemma dec_string_digit (n : N) :
  (n < 10)%N -> String.length (dec_string n) = 1%nat.
Proof.
  intros Hn.
  assert (Hall : forallb (fun k => Nat.eqb (String.length
                                              (dec_string (N.of_nat k))) 1)
                         (seq 0 10) = true) by (vm_compute; reflexivity).
  rewrite forallb_forall in Hall.
  specialize (Hall (N.to_nat n)). rewrite N2Nat.id in Hall.
  apply Nat.eqb_eq, Hall, in_seq. lia.
Qed.

Lemma length_append (a b : string) :
  String.length (a ++ b) = (String.length a + String.length b)%nat.
Proof. induction a as [|c a IH]; simpl; [reflexivity|]. rewrite IH. reflexivity. Qed.

Lemma get_after (a rest : string) (c : ascii) :
  String.get (String.length a) (a ++ String c rest) = Some c.
Proof. induction a as [|x a IH]; simpl; [reflexivity|exact IH]. Qed.

(** X12: for hours, minutes and seconds below 100 (so for every time of
    day) the time text has exactly eight characters, [HHMMSS.6]. *)
Theorem time_strftime_length (now : struct_time) :
  (tm_hour now < 100)%N -> (tm_min now < 100)%N -> (tm_sec now < 100)%N ->
  String.length (time_strftime now) = 8%nat.
Proof.
  intros Hh Hm Hs. unfold time_strftime.
  rewrite !length_append, !fmt_d_2_length by assumption. reflexivity.
Qed.

Lemma time_strftime_length_witness :
  String.length (time_strftime (mkTime 7 5 9)) = 8%nat.
Proof. apply time_strftime_length; reflexivity. Defined.

Lemma round_half_even_below (x : R) (K : Z) :
  0 <= x < IZR K - 1 / 2 -> (0 <= round_half_even x < K)%Z.
Proof.
  intros [Hx0 HxK]. pose proof (Rfloor_bounds x) as [Hf1 Hf2].
  pose proof (Rfloor_nonneg x Hx0) as Hf0.
  assert (Hlt : forall z : Z, IZR z < IZR K -> (z < K)%Z) by (intros; apply lt_IZR; assumption).
  unfold round_half_even.
  destruct (Rltb (x - IZR (Rfloor x)) (1 / 2)) eqn:E1.
  - split; [exact Hf0|]. apply Hlt. lra.
  - apply Rltb_false in E1.
    assert (Hup : (Rfloor x + 1 < K)%Z) by (apply Hlt; rewrite plus_IZR; lra).
    destruct (Rltb (1 / 2) (x - IZR (Rfloor x))); [lia|].
    destruct (Z.even (Rfloor x)); lia.
Qed.

(** X13: the minutes are not zero-padded.  For [|lat| < 100] and minutes
    below 9.9999995 the latitude field is two degree digits, ONE minute
    digit and then the decimal point: the point is the fourth character. *)
Theorem latitude_minutes_not_padded
        (lat lon : R) (alt speed : pyfloat) (now : struct_time) :
  Rabs lat < 100 ->
  (Rabs lat - IZR (Rfloor (Rabs lat))) * 60 < 9.9999995 ->
  exists rmc gga vtg,
    create_nmea_sentences (Finite lat) (Finite lon) alt speed now
    = Ok [rmc; gga; vtg]
    /\ String.get 3 (nth 3 (nmea_fields rmc) "") = Some "."%char
    /\ String.get 3 (nth 2 (nmea_fields gga) "") = Some "."%char.
Proof.
  intros Hlat Hmin.
  destruct (create_nmea_sentences_finite lat lon alt speed now)
    as (E & H1 & H2 & H3).
  cbv zeta in E, H1, H2, H3. rewrite E.
  do 3 eexists. split; [reflexivity|].
  rewrite !nmea_fields_wrap by (assumption || discriminate).
  cbn [rmc_fields gga_fields nth].
  clear E. set (d := Rfloor (Rabs lat)) in *.
  set (m := (Rabs lat - IZR d) * 60) in *.
  pose proof (minutes_range lat) as Hm. fold d in Hm. fold m in Hm.
  assert (Hd : String.length (fmt_d 2 d) = 2%nat).
  { pose proof (Rfloor_nonneg _ (Rabs_pos lat)) as Hd0. fold d in Hd0.
    pose proof (Rfloor_bounds (Rabs lat)) as [Hd1 _]. fold d in Hd1.
    assert (Hd2 : (d < 100)%Z) by (apply lt_IZR; lra).
    rewrite <- (Z2N.id d Hd0). apply fmt_d_2_length. lia. }
  unfold fmt_f.
  rewrite (proj2 (Rltb_false m 0)) by lra.
  set (n := Z.to_N (round_half_even (Rabs m * 10 ^ 6))).
  assert (Hn : (n / 10 ^ N.of_nat 6 < 10)%N).
  { assert (Hr : (0 <= round_half_even (Rabs m * 10 ^ 6) < 10000000)%Z).
    { apply round_half_even_below. rewrite Rabs_right by lra. unfold pow. lra. }
    apply N.Div0.div_lt_upper_bound.
    change (10 ^ N.of_nat 6 * 10)%N with 10000000%N. unfold n. lia. }
  apply dec_string_digit in Hn.
  set (q := dec_string (n / 10 ^ N.of_nat 6)) in *.
  set (rest := zfill 6 (dec_string (n mod 10 ^ N.of_nat 6))).
  assert (G : String.get 3 (fmt_d 2 d ++ "" ++ q ++ "." ++ rest) = Some "."%char).
  { change ("" ++ q ++ "." ++ rest) with (q ++ String "." rest).
    rewrite <- append_assoc'.
    replace 3%nat with (String.length (fmt_d 2 d ++ q))
      by (rewrite length_append, Hd, Hn; reflexivity).
    apply get_after. }
  split; exact G.
Qed.

Lemma latitude_minutes_not_padded_witness :
  exists rmc gga vtg,
    create_nmea_sentences (Finite 57.05) (Finite 11.75) (Finite 106)
                          (Finite 12) (mkTime 12 34 56)
    = Ok [rmc; gga; vtg]
    /\ String.get 3 (nth 3 (nmea_fields rmc) "") = Some "."%char
    /\ String.get 3 (nth 2 (nmea_fields gga) "") = Some "."%char.
Proof.
  assert (Ea : Rabs 57.05 = 57.05) by (apply Rabs_right; lra).
  assert (Ef : Rfloor (Rabs 57.05) = 57%Z)
    by (rewrite Ea; apply Rfloor_unique; lra).
  apply latitude_minutes_not_padded.
  - rewrite Ea. lra.
  - rewrite Ef, Ea. lra.
Defined.

(* ================================================================== *)
(** * Further properties of the dead reckoning *)

Local Open Scope R_scope.



Lemma atan2_zero_nonneg (x : R) : 0 <= x -> atan2 0 x = 0.
Proof.
  intros Hx. unfold atan2.
  destruct (Rltb 0 x) eqn:E.
  - unfold Rdiv. rewrite Rmult_0_l. apply atan_0.
  - apply Rltb_false in E. rcmp. reflexivity.
Qed.

Lemma radians_degrees (x : R) : x * (PI / 180) * (180 / PI) = x.
Proof. field. pose proof PI_bounds. lra. Qed.

Lemma degrees_radians (x : R) : x * (180 / PI) * (PI / 180) = x.
Proof. field. pose proof PI_bounds. lra. Qed.

(** Along a meridian: heading 0 (north) when [north], heading 180 (south)
    otherwise; [s] is the sign of the move. *)
Lemma meridian_move (phi lam d s h : R) :
  (s = 1 /\ h = 0) \/ (s = -1 /\ h = PI) ->
  - (PI / 2) <= phi <= PI / 2 ->
  - (PI / 2) <= phi + s * d <= PI / 2 ->
  let new_lat := asin (sin phi * cos d + cos phi * sin d * cos h) in
  new_lat = phi + s * d
  /\ lam + atan2 (sin h * sin d * cos phi) (cos d - sin phi * sin new_lat) = lam.
Proof.
  intros Hs Hphi Hnew. cbv zeta.
  assert (E : sin phi * cos d + cos phi * sin d * cos h = sin (phi + s * d)).
  { destruct Hs as [[-> ->]|[-> ->]].
    - rewrite cos_0, Rmult_1_l, sin_plus. ring.
    - rewrite cos_PI. replace (phi + -1 * d) with (phi - d) by ring.
      rewrite sin_minus. ring. }
  rewrite E, asin_sin by exact Hnew. split; [reflexivity|].
  assert (E0 : sin h * sin d * cos phi = 0).
  { destruct Hs as [[_ ->]|[_ ->]]; [rewrite sin_0|rewrite sin_PI]; ring. }
  assert (Ec : cos d = cos (phi + s * d) * cos phi + sin (phi + s * d) * sin phi).
  { destruct Hs as [[-> _]|[-> _]].
    - replace d with ((phi + 1 * d) - phi) at 1 by ring. apply cos_minus.
    - replace d with (phi - (phi + -1 * d)) at 1 by ring.
      rewrite cos_minus. ring. }
  rewrite E0, atan2_zero_nonneg; [lra|].
  rewrite Ec.
  assert (0 <= cos (phi + s * d)) by (apply cos_ge_0; lra).
  assert (0 <= cos phi) by (apply cos_ge_0; lra).
  nra.
Qed.

Lemma latitude_radians_range (lat : R) :
  -90 <= lat <= 90 -> - (PI / 2) <= lat * (PI / 180) <= PI / 2.
Proof. intros H. pose proof PI_bounds. nra. Qed.



(** X16: a wind from due north (bearing 0) moves the point due south by
    the same amount and the longitude stays, when the start and the end of
    the move are at least one degree away from the poles (exact arithmetic;
    next to a pole the doubles of the program leave this closed form). *)
Theorem update_position_due_south (dt lat lon speed : R) :
  0 < speed -> 0 < dt -> lat <= 89 ->
  -89 <= lat - speed * 1.852 * (dt / 3600) / 6371 * (180 / PI) ->
  update_position_at dt (Finite lat) (Finite lon) (Finite 0) (Finite speed)
  = Ok (Finite (lat - speed * 1.852 * (dt / 3600) / 6371 * (180 / PI)),
        Finite lon).
Proof.
  intros Hs Hdt Hhi Hlo. pose proof PI_bounds as HPI.
  set (d := speed * 1.852 * (dt / 3600) / 6371) in *.
  assert (Hd : 0 < d).
  { unfold d. assert (0 < dt / 3600) by lra.
    assert (0 < speed * 1.852 * (dt / 3600)) by (apply Rmult_lt_0_compat; lra).
    lra. }
  assert (Hdd : 0 < d * (180 / PI)).
  { apply Rmult_lt_0_compat; [exact Hd|]. apply Rdiv_lt_0_compat; lra. }
  rewrite update_position_at_finite.
  2:{ unfold d in Hd. lra. }
  fold d.
  assert (Eh : pymod (0 + 180) 360 * (PI / 180) = PI).
  { rewrite (pymod_unique _ _ 0%Z) by lra. lra. }
  rewrite Eh.
  assert (Hphi : - (PI / 2) <= lat * (PI / 180) <= PI / 2)
    by (apply latitude_radians_range; lra).
  assert (Hnew : - (PI / 2) <= lat * (PI / 180) + -1 * d <= PI / 2).
  { pose proof (latitude_radians_range (lat - d * (180 / PI)) ltac:(lra)) as H.
    unfold Rminus in H.
    rewrite Rmult_plus_distr_r, Ropp_mult_distr_l_reverse, degrees_radians in H.
    lra. }
  destruct (meridian_move (lat * (PI / 180)) (lon * (PI / 180)) d (-1) PI
                          (or_intror (conj eq_refl eq_refl)) Hphi Hnew)
    as [E1 E2].
  cbv zeta in E1, E2. rewrite E2, E1.
  rewrite radians_degrees.
  replace ((lat * (PI / 180) + -1 * d) * (180 / PI))
    with (lat * (PI / 180) * (180 / PI) - d * (180 / PI)) by ring.
  rewrite radians_degrees. reflexivity.
Qed.

Lemma update_position_due_south_witness :
  update_position_at 3600 (Finite 10) (Finite 20) (Finite 0) (Finite 1)
  = Ok (Finite (10 - 1 * 1.852 * (3600 / 3600) / 6371 * (180 / PI)), Finite 20).
Proof.
  apply update_position_due_south; try lra.
  pose proof one_knot_hour_degrees. lra.
Defined.

(** X17: on the equator a wind from due west (bearing 270) moves the point
    due east: the latitude stays 0 and the longitude grows by the distance
    over the Earth radius, in degrees; the sum is returned as it is, also
    beyond 180. *)
Theorem update_position_equator_east (dt lon speed : R) :
  0 < speed -> 0 < dt ->
  speed * 1.852 * (dt / 3600) / 6371 < PI / 2 ->
  update_position_at dt (Finite 0) (Finite lon) (Finite 270) (Finite speed)
  = Ok (Finite 0,
        Finite (lon + speed * 1.852 * (dt / 3600) / 6371 * (180 / PI))).
Proof.
  intros Hs Hdt Hsmall. pose proof PI_bounds as HPI.
  set (d := speed * 1.852 * (dt / 3600) / 6371) in *.
  assert (Hd : 0 < d).
  { unfold d. assert (0 < dt / 3600) by lra.
    assert (0 < speed * 1.852 * (dt / 3600)) by (apply Rmult_lt_0_compat; lra).
    lra. }
  rewrite update_position_at_finite.
  2:{ unfold d in Hd. lra. }
  fold d.
  assert (Eh : pymod (270 + 180) 360 * (PI / 180) = PI / 2).
  { rewrite (pymod_unique _ _ 1%Z) by lra. lra. }
  assert (Ez : 0 * (PI / 180) = 0) by lra.
  rewrite Eh, Ez, sin_0, cos_0, cos_PI2, sin_PI2.
  replace (0 * cos d + 1 * sin d * 0) with 0 by ring.
  rewrite asin_0, sin_0.
  replace (1 * sin d * 1) with (sin d) by ring.
  replace (cos d - 0 * 0) with (cos d) by ring.
  assert (Hc : 0 < cos d) by (apply cos_gt_0; lra).
  unfold atan2. rcmp.
  change (sin d / cos d) with (tan d). rewrite atan_tan by lra.
  rewrite Rmult_plus_distr_r, radians_degrees.
  replace (0 * (180 / PI)) with 0 by ring. reflexivity.
Qed.

Lemma update_position_equator_east_witness :
  update_position_at 1 (Finite 0) (Finite 179.9999) (Finite 270) (Finite 100)
  = Ok (Finite 0,
        Finite (179.9999 + 100 * 1.852 * (1 / 3600) / 6371 * (180 / PI))).
Proof.
  apply update_position_equator_east; try lra.
  pose proof PI_bounds. lra.
Defined.

(** X18: finite arguments give a finite position, for every tick length:
    with exact arithmetic neither the NaN test nor the exception handler
    is reached. *)
Theorem update_position_finite (dt lat lon bearing speed : R) :
  exists la lo,
    update_position_at dt (Finite lat) (Finite lon) (Finite bearing)
                       (Finite speed)
    = Ok (Finite la, Finite lo).
Proof.
  destruct (Rle_dec (speed * 1.852 * (dt / 3600)) 0) as [Hle|Hgt].
  - exists lat, lon. unfold update_position_at, distance_km_at.
    cbn [fmul fle]. rewrite (proj2 (Rleb_true _ _) Hle). reflexivity.
  - do 2 eexists. apply update_position_at_finite. lra.
Qed.

(** A geodesic with two proper coordinates comes from a finite latitude,
    bearing and distance and a longitude that is not NaN. *)
Lemma geodesic_proper (lat_r lon_r b_r d new_lat new_lon : pyfloat) :
  geodesic lat_r lon_r b_r d = Ok (new_lat, new_lon) ->
  math_isnan new_lat = false -> math_isnan new_lon = false ->
  math_isfinite lat_r = true /\ math_isfinite b_r = true
  /\ math_isfinite d = true /\ math_isnan lon_r = false.
Proof.
  unfold geodesic.
  destruct lat_r as [a| | |]; cbn [math_sin bind]; try discriminate;
  destruct d as [x| | |]; cbn [math_cos math_sin bind]; try discriminate;
  destruct b_r as [b| | |];
    cbn [math_cos math_sin bind fmul fadd math_asin]; try discriminate;
  try (destruct (Rleb (-1) _ && Rleb _ 1); cbn [bind math_sin]; [|discriminate]);
  cbn [bind math_sin math_cos fmul fsub fopp fadd math_atan2];
  intros H; injection H as <- <-; cbn [math_isnan]; try discriminate;
  destruct lon_r; cbn [fadd math_isnan]; try discriminate; auto.
Qed.

Lemma update_position_at_cases (dt : R) (lat lon bearing speed : pyfloat) :
  update_position_at dt lat lon bearing speed = Ok (lat, lon)
  \/ exists new_lat new_lon,
       geodesic_at dt lat lon bearing speed = Ok (new_lat, new_lon)
       /\ math_isnan new_lat = false /\ math_isnan new_lon = false.
Proof.
  unfold update_position_at.
  destruct (fle (distance_km_at dt speed) (Finite 0)); [left; reflexivity|].
  destruct (geodesic_at dt lat lon bearing speed) as [[nl nlo]|e] eqn:E.
  - destruct (math_isnan nl) eqn:E1; [left; reflexivity|].
    destruct (math_isnan nlo) eqn:E2; [left; reflexivity|].
    right. exists nl, nlo. auto.
  - unfold geodesic_at in E. apply geodesic_raises in E. subst e.
    left. reflexivity.
Qed.

Lemma fmul_finite_l (x : pyfloat) (c : R) :
  c <> 0 -> math_isfinite (fmul x (Finite c)) = true -> math_isfinite x = true.
Proof.
  intros Hc. destruct x; cbn; auto; unfold inf_times;
    destruct (Rltb 0 c) eqn:E1; try discriminate;
    destruct (Rltb c 0) eqn:E2; try discriminate;
    apply Rltb_false in E1, E2; intros _; exfalso; lra.
Qed.

(** X19: a degenerate argument leaves the position as it is: when the
    latitude, the wind bearing or the wind speed is NaN or infinite, or the
    longitude is NaN, the input position is returned and nothing is
    raised. *)
Theorem update_position_degenerate_input
        (dt : R) (lat lon bearing speed : pyfloat) :
  math_isfinite lat = false \/ math_isfinite bearing = false
  \/ math_isfinite speed = false \/ math_isnan lon = true ->
  update_position_at dt lat lon bearing speed = Ok (lat, lon).
Proof.
  intros Hdeg. pose proof PI_bounds as HPI.
  destruct (update_position_at_cases dt lat lon bearing speed)
    as [E|(nl & nlo & G & H1 & H2)]; [exact E|exfalso].
  unfold geodesic_at in G.
  destruct (geodesic_proper _ _ _ _ _ _ G H1 H2) as (Flat & Fb & Fd & Flon).
  assert (Hlat : math_isfinite lat = true).
  { apply (fmul_finite_l lat (PI / 180)); [lra|exact Flat]. }
  assert (Hb : math_isfinite bearing = true).
  { apply (fmul_finite_l _ (PI / 180)) in Fb; [|lra].
    destruct bearing; auto. }
  assert (Hsp : math_isfinite speed = true).
  { unfold distance_km_at in Fd.
    destruct speed; auto; exfalso; cbn in Fd; unfold inf_times in Fd;
      revert Fd; rcmp; cbn; unfold inf_times;
      destruct (Rltb 0 (dt / 3600)); try discriminate;
      destruct (Rltb (dt / 3600) 0); cbn; unfold inf_times, EARTH_RADIUS_KM;
      rcmp; discriminate. }
  assert (Hlon : math_isnan lon = false).
  { destruct lon; auto. }
  destruct Hdeg as [H|[H|[H|H]]]; congruence.
Qed.

Lemma update_position_degenerate_input_witness :
  update_position NaN (Finite 20) (Finite 90) (Finite 5)
  = Ok (NaN, Finite 20)
  /\ update_position (Finite 10) (Finite 20) PInf (Finite 5)
     = Ok (Finite 10, Finite 20)
  /\ update_position (Finite 10) (Finite 20) (Finite 90) PInf
     = Ok (Finite 10, Finite 20).
Proof.
  repeat split; apply update_position_degenerate_input; cbn; auto.
Defined.

(* ================================================================== *)
(** * The two loops *)

Local Open Scope string_scope.

(** The latitude range is kept, for finite arguments. *)
Lemma update_position_finite_range (dt lat lon bearing speed : R) :
  -90 <= lat <= 90 ->
  exists la lo,
    update_position_at dt (Finite lat) (Finite lon) (Finite bearing)
                       (Finite speed)
    = Ok (Finite la, Finite lo)
    /\ -90 <= la <= 90.
Proof.
  intros Hlat. pose proof PI_bounds as HPI.
  destruct (Rle_dec (speed * 1.852 * (dt / 3600)) 0) as [Hle|Hgt].
  - exists lat, lon. split; [|exact Hlat].
    unfold update_position_at, distance_km_at.
    cbn [fmul fle]. rewrite (proj2 (Rleb_true _ _) Hle). reflexivity.
  - do 2 eexists. split; [apply update_position_at_finite; lra|].
    cbv zeta.
    match goal with |- _ <= asin ?x * _ <= _ =>
      pose proof (asin_bound x) as [Ha1 Ha2] end.
    apply degrees_le in Ha1, Ha2.
    assert (E1 : - (PI / 2) * (180 / PI) = - 90) by (field; lra).
    assert (E2 : PI / 2 * (180 / PI) = 90) by (field; lra).
    lra.
Qed.

(** The sentences of a call that returns: three, each passing the test of
    the receiver. *)
Lemma create_nmea_sentences_valid
      (lat lon alt speed : pyfloat) (now : struct_time) (ss : list string) :
  create_nmea_sentences lat lon alt speed now = Ok ss ->
  exists s1 s2 s3,
    ss = [s1; s2; s3]
    /\ checksum_valid s1 = true /\ checksum_valid s2 = true
    /\ checksum_valid s3 = true.
Proof.
  intros H.
  destruct (create_nmea_sentences_ok _ _ _ _ _ _ H)
    as (t & la & lah & lo & loh & E & H1 & H2 & H3).
  cbv zeta in E, H1, H2, H3. rewrite E.
  do 3 eexists. split; [reflexivity|].
  repeat split; apply checksum_valid_wrap, free_of_star_concat; assumption.
Qed.

(** One turn of the main loop from a good position. *)
Lemma tick_from_good_position
      (winds : list WindSample) (now : struct_time) (st : FlightState) :
  good_position st ->
  let alt := (balloon_alt_ft st
              + vertical_speed_mps st * UPDATE_INTERVAL * 3.281)%R in
  match interpolate_wind winds alt with
  | Raise e => tick winds now st = Raise e
  | Ok _ =>
      exists st' l1 l2 l3,
        tick winds now st = Ok (st', [l1; l2; l3])
        /\ valid_line l1 /\ valid_line l2 /\ valid_line l3
        /\ good_position st'
        /\ balloon_alt_ft st' = alt
        /\ vertical_speed_mps st' = vertical_speed_mps st
  end.
Proof.
  intros (la & lo & Ela & Elo & Hla) alt. unfold tick. fold alt.
  destruct (interpolate_wind winds alt) as [[wb ws]|e]; [|reflexivity].
  cbn [bind fst snd]. unfold update_position. rewrite Ela, Elo.
  destruct (update_position_finite_range UPDATE_INTERVAL la lo wb ws Hla)
    as (la' & lo' & E & Hla').
  rewrite E. cbn [bind fst snd].
  destruct (create_nmea_sentences_returns la' lo' (Finite alt) (Finite ws) now)
    as [ss Hss].
  destruct (create_nmea_sentences_valid _ _ _ _ _ _ Hss)
    as (s1 & s2 & s3 & -> & V1 & V2 & V3).
  rewrite Hss. cbn [bind map].
  do 4 eexists. split; [reflexivity|].
  repeat split; try (eexists; split; [reflexivity|assumption]).
  exists la', lo'. cbn. auto.
Qed.

Lemma initial_state_good : good_position initial_state.
Proof. exists 57.89579925190799, 11.745555042076292. cbn. repeat split; lra. Qed.

(** What a completed turn of the main loop has done. *)
Lemma tick_completed
        (winds : list WindSample) (now : struct_time)
        (st st' : FlightState) (out : list string) :
  good_position st ->
  tick winds now st = Ok (st', out) ->
  (exists l1 l2 l3,
     out = [l1; l2; l3] /\ valid_line l1 /\ valid_line l2 /\ valid_line l3)
  /\ good_position st'
  /\ balloon_alt_ft st'
     = (balloon_alt_ft st + vertical_speed_mps st * UPDATE_INTERVAL * 3.281)%R
  /\ vertical_speed_mps st' = vertical_speed_mps st.
Proof.
  intros Hgood Htick.
  pose proof (tick_from_good_position winds now st Hgood) as H.
  cbv zeta in H.
  destruct (interpolate_wind winds _) as [r|e].
  - destruct H as (st1 & l1 & l2 & l3 & E & V1 & V2 & V3 & G & A & S).
    rewrite E in Htick. injection Htick as <- <-.
    split; [exists l1, l2, l3; auto|]. auto.
  - rewrite H in Htick. discriminate.
Qed.

Lemma tick_example_returns :
  exists r, tick [mkWind 0 90 5; mkWind 1000 180 10] (mkTime 12 0 0)
                 initial_state = Ok r.
Proof.
  pose proof (tick_from_good_position
                [mkWind 0 90 5; mkWind 1000 180 10] (mkTime 12 0 0)
                initial_state initial_state_good) as H.
  cbv zeta in H.
  destruct (interpolate_wind_covered
              [mkWind 0 90 5; mkWind 1000 180 10]
              (balloon_alt_ft initial_state
               + vertical_speed_mps initial_state * UPDATE_INTERVAL * 3.281)%R)
    as [Hc _].
  destruct Hc as [r Er].
  - right. split.
    + exists (mkWind 0 90 5). split; [left; reflexivity|].
      cbn. unfold UPDATE_INTERVAL. lra.
    + exists (mkWind 1000 180 10). split; [right; left; reflexivity|].
      cbn. unfold UPDATE_INTERVAL. lra.
  - rewrite Er in H. destruct H as (st' & l1 & l2 & l3 & E & _).
    eexists. exact E.
Qed.

(** X21: a completed turn of the main loop writes exactly three lines, each
    a sentence with a valid checksum followed by CR LF; it keeps the
    position finite with the latitude in [-90, 90], adds
    [vertical_speed * UPDATE_INTERVAL * 3.281] feet to the altitude and
    leaves the vertical speed alone. *)
Theorem tick_effects
        (winds : list WindSample) (now : struct_time)
        (st st' : FlightState) (out : list string) :
  good_position st ->
  tick winds now st = Ok (st', out) ->
  (exists l1 l2 l3,
     out = [l1; l2; l3] /\ valid_line l1 /\ valid_line l2 /\ valid_line l3)
  /\ good_position st'
  /\ balloon_alt_ft st'
     = (balloon_alt_ft st + vertical_speed_mps st * UPDATE_INTERVAL * 3.281)%R
  /\ vertical_speed_mps st' = vertical_speed_mps st.
Proof.
  intros Hgood Htick. exact (tick_completed winds now st st' out Hgood Htick).
Qed.

Lemma tick_effects_witness :
  exists st' out,
    tick [mkWind 0 90 5; mkWind 1000 180 10] (mkTime 12 0 0) initial_state
    = Ok (st', out)
    /\ List.length out = 3%nat
    /\ good_position st'
    /\ balloon_alt_ft st' = (106 + 0 * UPDATE_INTERVAL * 3.281)%R.
Proof.
  destruct tick_example_returns as [[st' out] E].
  exists st', out. split; [exact E|].
  destruct (tick_effects _ _ _ _ _ initial_state_good E)
    as ((l1 & l2 & l3 & -> & _) & G & A & _).
  split; [reflexivity|]. split; [exact G|exact A].
Defined.

Lemma poll_state_good (up_pressed down_pressed : bool) (st : FlightState) :
  good_position st -> good_position (poll_state up_pressed down_pressed st).
Proof. intros (la & lo & H). exists la, lo. exact H. Qed.

Lemma write_sentences_three (port : string -> bool) (l1 l2 l3 : string) :
  write_sentences port [l1; l2; l3]
  = if port l1 && port l2 && port l3 then Ok tt else Raise SerialException.
Proof.
  cbn [write_sentences]. unfold serial_write.
  destruct (port l1), (port l2), (port l3); reflexivity.
Qed.

Lemma write_sentences_raises (port : string -> bool) (lines : list string)
      (e : exn) :
  write_sentences port lines = Raise e -> e = SerialException.
Proof.
  induction lines as [|line rest IH]; cbn [write_sentences]; [discriminate|].
  unfold serial_write. destruct (port line); cbn [bind]; [exact IH|].
  congruence.
Qed.

(** One turn of the main loop with its writes, from a good position. *)
Lemma turn_from_good_position
      (winds : list WindSample) (now : struct_time) (port : string -> bool)
      (st : FlightState) :
  good_position st ->
  let alt := (balloon_alt_ft st
              + vertical_speed_mps st * UPDATE_INTERVAL * 3.281)%R in
  (~ covered winds alt -> turn winds now port st = Raise IndexError)
  /\ (covered winds alt ->
      exists st' l1 l2 l3,
        tick winds now st = Ok (st', [l1; l2; l3])
        /\ turn winds now port st
           = if port l1 && port l2 && port l3
             then Ok (st', [l1; l2; l3]) else Raise SerialException).
Proof.
  intros Hgood alt.
  pose proof (tick_from_good_position winds now st Hgood) as H.
  cbv zeta in H. fold alt in H.
  destruct (interpolate_wind_covered winds alt) as [Hc Hn].
  split; intros Hcov.
  - rewrite (Hn Hcov) in H. unfold turn. rewrite H. reflexivity.
  - destruct (Hc Hcov) as [r Er]. rewrite Er in H.
    destruct H as (st' & l1 & l2 & l3 & E & _).
    exists st', l1, l2, l3. split; [exact E|].
    unfold turn. rewrite E. cbn [bind snd].
    rewrite write_sentences_three.
    destruct (port l1 && port l2 && port l3); reflexivity.
Qed.

(** X20: from a finite position a turn of the main loop has three
    outcomes.  It raises [IndexError] when the new altitude is not covered
    by the wind table.  Otherwise the position update and the encoder
    return, and the turn completes when the serial port takes the three
    lines and raises the error of the port as soon as one write fails. *)
Theorem turn_outcome
        (winds : list WindSample) (now : struct_time) (port : string -> bool)
        (st : FlightState) :
  good_position st ->
  let alt := (balloon_alt_ft st
              + vertical_speed_mps st * UPDATE_INTERVAL * 3.281)%R in
  (~ covered winds alt -> turn winds now port st = Raise IndexError)
  /\ (covered winds alt ->
      exists st' l1 l2 l3,
        tick winds now st = Ok (st', [l1; l2; l3])
        /\ turn winds now port st
           = if port l1 && port l2 && port l3
             then Ok (st', [l1; l2; l3]) else Raise SerialException).
Proof.
  intros Hgood. exact (turn_from_good_position winds now port st Hgood).
Qed.

Lemma example_altitude_covered :
  covered [mkWind 0 90 5; mkWind 1000 180 10]
          (balloon_alt_ft initial_state
           + vertical_speed_mps initial_state * UPDATE_INTERVAL * 3.281)%R.
Proof.
  right. split.
  - exists (mkWind 0 90 5). split; [left; reflexivity|].
    cbn. unfold UPDATE_INTERVAL. lra.
  - exists (mkWind 1000 180 10). split; [right; left; reflexivity|].
    cbn. unfold UPDATE_INTERVAL. lra.
Qed.

Lemma turn_outcome_witness :
  (exists r, turn [mkWind 0 90 5; mkWind 1000 180 10] (mkTime 12 0 0)
                  (fun _ => true) initial_state = Ok r)
  /\ turn [mkWind 0 90 5; mkWind 1000 180 10] (mkTime 12 0 0)
          (fun _ => false) initial_state = Raise SerialException
  /\ turn [mkWind 500 90 5; mkWind 1000 180 10] (mkTime 12 0 0)
          (fun _ => true) initial_state = Raise IndexError.
Proof.
  split; [|split].
  - destruct (turn_outcome [mkWind 0 90 5; mkWind 1000 180 10] (mkTime 12 0 0)
                           (fun _ => true) initial_state initial_state_good)
      as [_ H].
    destruct (H example_altitude_covered) as (st' & l1 & l2 & l3 & _ & E).
    eexists. exact E.
  - destruct (turn_outcome [mkWind 0 90 5; mkWind 1000 180 10] (mkTime 12 0 0)
                           (fun _ => false) initial_state initial_state_good)
      as [_ H].
    destruct (H example_altitude_covered) as (st' & l1 & l2 & l3 & _ & E).
    exact E.
  - apply (turn_outcome _ _ _ initial_state initial_state_good).
    cbn. unfold UPDATE_INTERVAL.
    intros [(w & [<-|[<-|[]]] & Hw)|[(w & [<-|[<-|[]]] & Hw) _]];
      cbn in Hw; lra.
Defined.

(** A turn that completes is a completed [tick] whose lines were taken. *)
Lemma turn_completed
      (winds : list WindSample) (now : struct_time) (port : string -> bool)
      (st st' : FlightState) (out : list string) :
  turn winds now port st = Ok (st', out) -> tick winds now st = Ok (st', out).
Proof.
  unfold turn. destruct (tick winds now st) as [r|e]; [|discriminate].
  cbn [bind]. destruct (write_sentences port (snd r)); [|discriminate].
  cbn [bind]. intros H. injection H as ->. reflexivity.
Qed.

Lemma turn_raises
      (winds : list WindSample) (now : struct_time) (port : string -> bool)
      (st : FlightState) (e : exn) :
  good_position st ->
  turn winds now port st = Raise e -> e = IndexError \/ e = SerialException.
Proof.
  intros Hgood H. unfold turn in H.
  pose proof (tick_from_good_position winds now st Hgood) as T.
  cbv zeta in T.
  destruct (interpolate_wind_covered winds
              (balloon_alt_ft st
               + vertical_speed_mps st * UPDATE_INTERVAL * 3.281)%R)
    as [Hok Hraise].
  destruct (interpolate_wind winds
              (balloon_alt_ft st
               + vertical_speed_mps st * UPDATE_INTERVAL * 3.281)%R)
    as [r|e'] eqn:Ew.
  - destruct T as (st' & l1 & l2 & l3 & E & _).
    rewrite E in H. cbn [bind snd] in H.
    destruct (write_sentences port [l1; l2; l3]) as [u|e1] eqn:W;
      cbn [bind] in H; [discriminate|].
    injection H as <-. right. exact (write_sentences_raises _ _ _ W).
  - rewrite T in H. cbn [bind] in H. injection H as <-. left.
    assert (Hnc : ~ covered winds
                    (balloon_alt_ft st
                     + vertical_speed_mps st * UPDATE_INTERVAL * 3.281)%R).
    { intros Hcov. destruct (Hok Hcov) as [r Er]. congruence. }
    specialize (Hraise Hnc). congruence.
Qed.

(** What a completed run has done. *)
Lemma run_completed
      (winds : list WindSample) (events : list event)
      (st st' : FlightState) (out : list string) :
  good_position st ->
  run winds events st = Ok (st', out) ->
  List.length out = (3 * count_ticks events)%nat
  /\ Forall valid_line out
  /\ good_position st'
  /\ vertical_speed_mps st'
     = monitor_keyboard (key_states events) (vertical_speed_mps st).
Proof.
  revert st st' out.
  induction events as [|[up_pressed down_pressed|now port] rest IH];
    intros st st' out Hgood Hrun; cbn [run] in Hrun.
  - injection Hrun as <- <-. repeat split; auto.
  - apply IH in Hrun; [|apply poll_state_good, Hgood]. exact Hrun.
  - destruct (turn winds now port st) as [[st1 out1]|e] eqn:Et; [|discriminate].
    cbn [bind fst snd] in Hrun.
    destruct (run winds rest st1) as [[st2 out2]|e] eqn:Er; [|discriminate].
    cbn [bind fst snd] in Hrun. injection Hrun as <- <-.
    apply turn_completed in Et.
    destruct (tick_completed _ _ _ _ _ Hgood Et)
      as ((l1 & l2 & l3 & -> & V1 & V2 & V3) & G1 & _ & S1).
    destruct (IH _ _ _ G1 Er) as (L & F & G2 & S2).
    cbn [count_ticks key_states]. repeat split.
    + rewrite length_app, L. cbn [List.length]. lia.
    + apply Forall_app. split; [|exact F]. repeat constructor; assumption.
    + exact G2.
    + rewrite S2, S1. reflexivity.
Qed.

(** X22: over any interleaving of turns of the two loops, from a finite
    position with the latitude in [-90, 90]: a run that completes has written
    three lines per turn of the main loop, every line a sentence with a
    valid checksum followed by CR LF, and the position is still finite with
    the latitude in [-90, 90]. *)
Theorem run_invariant
        (winds : list WindSample) (events : list event)
        (st st' : FlightState) (out : list string) :
  good_position st ->
  run winds events st = Ok (st', out) ->
  List.length out = (3 * count_ticks events)%nat
  /\ Forall valid_line out
  /\ good_position st'.
Proof.
  intros Hgood Hrun.
  destruct (run_completed winds events st st' out Hgood Hrun)
    as (L & F & G & _).
  auto.
Qed.

Lemma run_example_returns :
  exists r,
    run [mkWind 0 90 5; mkWind 1000 180 10]
        [KeyPoll true false; Tick (mkTime 12 0 0) (fun _ => true)]
        initial_state = Ok r.
Proof.
  cbn [run].
  assert (Hgood : good_position (poll_state true false initial_state))
    by (apply poll_state_good, initial_state_good).
  destruct (turn_from_good_position
              [mkWind 0 90 5; mkWind 1000 180 10] (mkTime 12 0 0)
              (fun _ => true) _ Hgood) as [_ Hc].
  cbv zeta in Hc.
  destruct Hc as (st' & l1 & l2 & l3 & _ & E).
  - right. split.
    + exists (mkWind 0 90 5). split; [left; reflexivity|].
      cbn. unfold UPDATE_INTERVAL, keyboard_poll. lra.
    + exists (mkWind 1000 180 10). split; [right; left; reflexivity|].
      cbn. unfold UPDATE_INTERVAL, keyboard_poll. lra.
  - rewrite E. cbn [andb bind fst snd]. eexists. reflexivity.
Qed.

Lemma run_invariant_witness :
  exists st' out,
    run [mkWind 0 90 5; mkWind 1000 180 10]
        [KeyPoll true false; Tick (mkTime 12 0 0) (fun _ => true)]
        initial_state
    = Ok (st', out)
    /\ List.length out = 3%nat
    /\ Forall valid_line out
    /\ good_position st'.
Proof.
  destruct run_example_returns as [[st' out] E].
  exists st', out. split; [exact E|].
  exact (run_invariant _ _ _ _ _ initial_state_good E).
Defined.

(** X23: the vertical speed at the end of a completed run is what the
    keyboard loop alone makes of its key states: the main loop reads the
    vertical speed and never writes it. *)
Theorem run_vertical_speed
        (winds : list WindSample) (events : list event)
        (st st' : FlightState) (out : list string) :
  good_position st ->
  run winds events st = Ok (st', out) ->
  vertical_speed_mps st'
  = monitor_keyboard (key_states events) (vertical_speed_mps st).
Proof.
  intros Hgood Hrun.
  destruct (run_completed winds events st st' out Hgood Hrun)
    as (_ & _ & _ & S).
  exact S.
Qed.

Lemma run_vertical_speed_witness :
  exists st' out,
    run [mkWind 0 90 5; mkWind 1000 180 10]
        [KeyPoll true false; Tick (mkTime 12 0 0) (fun _ => true)]
        initial_state
    = Ok (st', out)
    /\ vertical_speed_mps st' = (0 + 0.1)%R.
Proof.
  destruct run_example_returns as [[st' out] E].
  exists st', out. split; [exact E|].
  exact (run_vertical_speed _ _ _ _ _ initial_state_good E).
Defined.

(** X24: a run from a finite position ends early in two ways only: by the
    [IndexError] of the wind query or by the error of a serial write.  The
    position update and the encoder never end it. *)
Theorem run_raises_only_wind_or_port
        (winds : list WindSample) (events : list event)
        (st : FlightState) (e : exn) :
  good_position st ->
  run winds events st = Raise e ->
  e = IndexError \/ e = SerialException.
Proof.
  revert st.
  induction events as [|[up_pressed down_pressed|now port] rest IH];
    intros st Hgood Hrun; cbn [run] in Hrun.
  - discriminate.
  - apply (IH _ (poll_state_good _ _ _ Hgood) Hrun).
  - destruct (turn winds now port st) as [[st1 out1]|e1] eqn:Et.
    + cbn [bind fst snd] in Hrun.
      apply turn_completed in Et.
      destruct (tick_completed _ _ _ _ _ Hgood Et) as (_ & G1 & _).
      destruct (run winds rest st1) as [[st2 out2]|e2] eqn:Er;
        cbn [bind] in Hrun; [discriminate|].
      injection Hrun as <-. apply (IH _ G1 Er).
    + cbn [bind] in Hrun. injection Hrun as <-.
      apply (turn_raises _ _ _ _ _ Hgood Et).
Qed.

Lemma run_raises_only_wind_or_port_witness :
  (exists e,
     run [] [Tick (mkTime 12 0 0) (fun _ => true)] initial_state = Raise e
     /\ (e = IndexError \/ e = SerialException))
  /\ (exists e,
        run [mkWind 0 90 5; mkWind 1000 180 10]
            [Tick (mkTime 12 0 0) (fun _ => false)] initial_state = Raise e
        /\ (e = IndexError \/ e = SerialException)).
Proof.
  split.
  - assert (E : run [] [Tick (mkTime 12 0 0) (fun _ => true)] initial_state
                = Raise IndexError) by reflexivity.
    exists IndexError. split; [exact E|].
    exact (run_raises_only_wind_or_port _ _ _ _ initial_state_good E).
  - assert (E : run [mkWind 0 90 5; mkWind 1000 180 10]
                    [Tick (mkTime 12 0 0) (fun _ => false)] initial_state
                = Raise SerialException).
    { cbn [run].
      destruct (turn_from_good_position
                  [mkWind 0 90 5; mkWind 1000 180 10] (mkTime 12 0 0)
                  (fun _ => false) initial_state initial_state_good)
        as [_ Hc].
      destruct (Hc example_altitude_covered) as (st' & l1 & l2 & l3 & _ & Et).
      rewrite Et. reflexivity. }
    exists SerialException. split; [exact E|].
    exact (run_raises_only_wind_or_port _ _ _ _ initial_state_good E).
Defined.

Local Open Scope R_scope.

(** X25: the keyboard loop adds 0.1 for every turn in which the first key
    is down and takes 0.1 away for every turn in which only the second key
    is down; with both keys down the speed goes up. *)
Theorem monitor_keyboard_net (keys : list (bool * bool)) (v : R) :
  monitor_keyboard keys v
  = v + 0.1 * INR (List.length (filter (fun k => fst k) keys))
      - 0.1 * INR (List.length
                     (filter (fun k => negb (fst k) && snd k) keys)).
Proof.
  revert v. induction keys as [|[up_pressed down_pressed] rest IH]; intros v.
  - cbn. lra.
  - cbn [monitor_keyboard filter fst snd]. rewrite IH.
    destruct up_pressed, down_pressed;
      cbn [keyboard_poll negb andb List.length];
      rewrite ?S_INR; lra.
Qed.
